(** * Development-server HTML route and dev-SSR worker pool

    A shallow embedding of

    - [packages/gatsby/src/services/develop-html-route/index.ts]
      (the stack parser [getPosition], the error translator [parseError],
      the [onReceive] listener and the [app.get] request handler), and
    - [packages/gatsby/src/utils/dev-ssr/render-dev-html.ts]
      ([startWorker], [initDevWorkerPool], [restartWorker], [renderDevHTML]),

    followed by the properties of the two files.

    Conventions.  A JavaScript string is a [string] (a sequence of 8-bit
    code units); [undefined] is [None]; an exception is a value of [exn]
    carried by the [Throw] constructor of [result]; paths are POSIX paths
    ([path.sep] is a slash). *)

From Stdlib Require Import ZArith String Ascii List Lia.
From stdpp Require Import base option list gmap strings.
Import ListNotations.

Local Open Scope string_scope.

(** ** JavaScript primitives used by the two files *)

Module JS.

(** What a [throw] carries.  [TypeError what] is the error raised by the
    engine when [what] is used as an object or called as a function;
    [ENOENT p] is the error of [fs.readFileSync] on a path it cannot
    read. *)
Inductive exn : Type :=
| TypeError (what : string)
| ENOENT (p : string).

Inductive result (A : Type) : Type :=
| Ok (a : A)
| Throw (e : exn).
Arguments Ok {A} a.
Arguments Throw {A} e.

Definition bind {A B} (m : result A) (k : A -> result B) : result B :=
  match m with
  | Ok a => k a
  | Throw e => Throw e
  end.

(** [try { body } catch (err) { handler }] where the handler ignores
    [err]. *)
Definition try_catch {A} (body : result A) (handler : A) : A :=
  match body with
  | Ok a => a
  | Throw _ => handler
  end.

(** A JavaScript number, as far as this program produces one.  [Int z]
    is an integer that a double holds exactly; [Lit s] stands for the
    value, never inspected here, of a numeric literal [s] that is not a
    plain run of decimal digits (sign, fraction, exponent, [Infinity],
    hexadecimal, octal or binary digits, or more than 53 bits): it is a
    number, not [NaN]. *)
Inductive number : Type :=
| NaN
| Int (z : Z)
| Lit (s : string).

Definition in_range (lo hi : nat) (c : ascii) : bool :=
  let n := nat_of_ascii c in (lo <=? n)%nat && (n <=? hi)%nat.

Definition is_digit (c : ascii) : bool := in_range 48 57 c.

Definition is_hex_digit (c : ascii) : bool :=
  is_digit c || in_range 65 70 c || in_range 97 102 c.

(** White space and line terminators among the 8-bit code units. *)
Definition is_space (c : ascii) : bool :=
  in_range 9 13 c || in_range 32 32 c || in_range 160 160 c.

Fixpoint all_of (p : ascii -> bool) (s : string) : bool :=
  match s with
  | EmptyString => true
  | String c s' => p c && all_of p s'
  end.

Definition some_of (p : ascii -> bool) (s : string) : bool :=
  match s with
  | EmptyString => false
  | _ => all_of p s
  end.

Fixpoint drop_while (p : ascii -> bool) (s : string) : string :=
  match s with
  | String c s' => if p c then drop_while p s' else s
  | EmptyString => s
  end.

Fixpoint rev_string (acc s : string) : string :=
  match s with
  | EmptyString => acc
  | String c s' => rev_string (String c acc) s'
  end.

Definition trim (s : string) : string :=
  rev_string "" (drop_while is_space (rev_string "" (drop_while is_space s))).

Fixpoint digits_value (acc : Z) (s : string) : Z :=
  match s with
  | EmptyString => acc
  | String c s' =>
      digits_value (10 * acc + (Z.of_nat (nat_of_ascii c) - 48))%Z s'
  end.

Definition drop_sign (s : string) : string :=
  match s with
  | String c s' =>
      if Ascii.eqb c "+"%char || Ascii.eqb c "-"%char then s' else s
  | EmptyString => s
  end.

(** Nothing, or [e] or [E], an optional sign and at least one digit. *)
Definition exponent_part (s : string) : bool :=
  match s with
  | EmptyString => true
  | String c s' =>
      (Ascii.eqb c "e"%char || Ascii.eqb c "E"%char)
      && some_of is_digit (drop_sign s')
  end.

(** [Infinity], or digits with an optional fraction and exponent, with a
    digit on at least one side of the point. *)
Definition unsigned_decimal (s : string) : bool :=
  if String.eqb s "Infinity" then true
  else
    let rest := drop_while is_digit s in
    let whole := (String.length rest <? String.length s)%nat in
    match rest with
    | String c rest' =>
        if Ascii.eqb c "."%char then
          let rest'' := drop_while is_digit rest' in
          let frac := (String.length rest'' <? String.length rest')%nat in
          (whole || frac) && exponent_part rest''
        else whole && exponent_part rest
    | EmptyString => whole
    end.

(** [0x], [0o] and [0b] literals. *)
Definition radix_literal (s : string) : bool :=
  match s with
  | String z (String x ds) =>
      Ascii.eqb z "0"%char
      && ((Ascii.eqb x "x"%char || Ascii.eqb x "X"%char)
            && some_of is_hex_digit ds
          || (Ascii.eqb x "o"%char || Ascii.eqb x "O"%char)
               && some_of (in_range 48 55) ds
          || (Ascii.eqb x "b"%char || Ascii.eqb x "B"%char)
               && some_of (in_range 48 49) ds)
  | _ => false
  end.

(** [Number(v)] for [v] a string or [undefined]. *)
Definition Number (v : option string) : number :=
  match v with
  | None => NaN
  | Some s =>
      let t := trim s in
      match t with
      | EmptyString => Int 0
      | _ =>
          if all_of is_digit t && (digits_value 0 t <=? 2 ^ 53)%Z
          then Int (digits_value 0 t)
          else if radix_literal t || unsigned_decimal (drop_sign t)
          then Lit t
          else NaN
      end
  end.

(** [s.split(sep)] for a one-character separator: never empty. *)
Fixpoint split (sep : ascii) (s : string) : list string :=
  match s with
  | EmptyString => [EmptyString]
  | String c s' =>
      if Ascii.eqb c sep then EmptyString :: split sep s'
      else match split sep s' with
           | hd :: tl => String c hd :: tl
           | [] => [String c EmptyString]
           end
  end.

(** [a[i]] for an index computed as [length - back]: [undefined] when the
    index is negative. *)
Definition index_from_end {A} (a : list A) (back : nat) : option A :=
  if (back <=? length a)%nat then a !! (length a - back)%nat else None.

(** [v ? v : d] on a string that may be [undefined]: the empty string is
    falsy. *)
Definition truthy (v : option string) : bool :=
  match v with
  | None | Some EmptyString => false
  | Some _ => true
  end.

(** Template-literal interpolation of a value that may be [undefined]. *)
Definition interpolate (v : option string) : string :=
  match v with
  | Some s => s
  | None => "undefined"
  end.

End JS.

(** ** The regular expressions of [getPosition] *)

Module Regex.

Inductive atom : Type :=
| AChr (c : ascii)          (* an escaped literal such as [\(] *)
| ADot.                     (* [.] : anything but a line terminator *)

Inductive regex : Type :=
| At (a : atom)
| LazyPlus (a : atom)       (* [a+?] *)
| Capture (r : regex)       (* [( r )] *)
| NonCapture (r : regex)    (* [(?: r )] *)
| Seq (r1 r2 : regex)
| Eos.                      (* [$] without the multiline flag *)

Definition atom_ok (a : atom) (c : ascii) : bool :=
  match a with
  | AChr d => Ascii.eqb c d
  | ADot => negb (Ascii.eqb c "010"%char || Ascii.eqb c "013"%char)
  end.

Fixpoint prefix (n : nat) (s : string) : string :=
  match n, s with
  | S n', String c s' => String c (prefix n' s')
  | _, _ => EmptyString
  end.

(** Backtracking matcher in continuation-passing style: [run r s caps k]
    matches [r] at the start of [s] and hands the rest of the input and
    the captures so far to [k]; the lazy quantifier tries [k] before it
    consumes another character. *)
Fixpoint run (r : regex) (s : string) (caps : list string)
    (k : string -> list string -> option (list string))
    : option (list string) :=
  match r with
  | At a =>
      match s with
      | String c s' => if atom_ok a c then k s' caps else None
      | EmptyString => None
      end
  | LazyPlus a =>
      (fix more (s : string) : option (list string) :=
         match s with
         | String c s' =>
             if atom_ok a c then
               match k s' caps with
               | Some res => Some res
               | None => more s'
               end
             else None
         | EmptyString => None
         end) s
  | Capture r1 =>
      run r1 s caps
        (fun rest caps' =>
           k rest (caps' ++ [prefix (String.length s - String.length rest) s])%list)
  | NonCapture r1 => run r1 s caps k
  | Seq r1 r2 => run r1 s caps (fun rest caps' => run r2 rest caps' k)
  | Eos =>
      match s with
      | EmptyString => k s caps
      | String _ _ => None
      end
  end.

(** The leftmost match: the capture groups, or [None] (JavaScript's
    [null]) when no start position matches. *)
Fixpoint exec (r : regex) (s : string) : option (list string) :=
  match run r s [] (fun _ caps => Some caps) with
  | Some caps => Some caps
  | None =>
      match s with
      | String _ s' => exec r s'
      | EmptyString => None
      end
  end.

Definition test (r : regex) (s : string) : bool :=
  match exec r s with Some _ => true | None => false end.

(** [s.match(r)[i]] for [i >= 1]; [s.match(r)] is [null] when nothing
    matches and indexing [null] throws. *)
Definition match_group (r : regex) (s : string) (i : nat)
    : JS.result (option string) :=
  match exec r s with
  | Some caps => JS.Ok (caps !! (i - 1)%nat)
  | None => JS.Throw (JS.TypeError "null")
  end.

End Regex.

(** ** Node's [path] module (POSIX flavour), as far as [parseError] uses it *)

Module Path.

Definition sep : ascii := "/"%char.

(** Resolution of [.] and [..] segments and of repeated separators;
    [acc] holds the segments kept so far, last one first. *)
Fixpoint normalize_segments (allowAboveRoot : bool) (segs acc : list string)
    : list string :=
  match segs with
  | [] => rev acc
  | seg :: rest =>
      if String.eqb seg "" || String.eqb seg "." then
        normalize_segments allowAboveRoot rest acc
      else if String.eqb seg ".." then
        match acc with
        | last :: acc' =>
            if String.eqb last ".." then
              normalize_segments allowAboveRoot rest
                (if allowAboveRoot then seg :: acc else acc)
            else normalize_segments allowAboveRoot rest acc'
        | [] =>
            normalize_segments allowAboveRoot rest
              (if allowAboveRoot then [seg] else [])
        end
      else normalize_segments allowAboveRoot rest (seg :: acc)
  end.

Definition starts_with_sep (p : string) : bool :=
  match p with
  | String c _ => Ascii.eqb c sep
  | EmptyString => false
  end.

Fixpoint ends_with_sep (p : string) : bool :=
  match p with
  | EmptyString => false
  | String c EmptyString => Ascii.eqb c sep
  | String _ p' => ends_with_sep p'
  end.

(** [path.normalize(p)] *)
Definition normalize (p : string) : string :=
  match p with
  | EmptyString => "."
  | _ =>
      let isAbsolute := starts_with_sep p in
      let trailingSeparator := ends_with_sep p in
      let body :=
        String.concat "/"
          (normalize_segments (negb isAbsolute) (JS.split sep p) []) in
      match body with
      | EmptyString =>
          if isAbsolute then "/" else if trailingSeparator then "./" else "."
      | _ =>
          let body := if trailingSeparator then body ++ "/" else body in
          if isAbsolute then "/" ++ body else body
      end
  end.

(** [path.join(...args)]: the non-empty arguments joined by a slash, then
    normalized; [.] when nothing is left. *)
Definition join (args : list string) : string :=
  match List.filter (fun a => negb (String.eqb a "")) args with
  | [] => "."
  | parts => normalize (String.concat "/" parts)
  end.

End Path.

(** ** The error translator: [getPosition] and [parseError] *)

Module ErrorTranslator.
Import JS Regex.

Record IErrorPosition : Type := {
  filename : option string;
  line : number;
  row : number
}.

(** [/\(.+?\)$/] *)
Definition stackLineRe : regex :=
  Seq (At (AChr "("%char))
    (Seq (LazyPlus ADot) (Seq (At (AChr ")"%char)) Eos)).

(** [/(?:\()(.+?)(?:\))$/] *)
Definition stackFileRe : regex :=
  Seq (NonCapture (At (AChr "("%char)))
    (Seq (Capture (LazyPlus ADot))
       (Seq (NonCapture (At (AChr ")"%char))) Eos)).

(** The body of the [try] block of [getPosition]. *)
Definition getPosition_try (stackObject : list string)
    : result IErrorPosition :=
  let filteredStack := List.filter (test stackLineRe) stackObject in
  bind
    (if (0 <? length filteredStack)%nat then
       match filteredStack !! 0%nat with
       | Some s =>
           bind (match_group stackFileRe s 1)
             (fun g =>
                match g with
                | Some g => Ok (split ":"%char g)
                | None => Throw (TypeError "undefined")
                end)
       | None => Throw (TypeError "undefined")
       end
     else
       match stackObject !! 0%nat with
       | Some s => Ok (split ":"%char s)
       | None => Throw (TypeError "undefined")
       end)
    (fun splitLine =>
       Ok {| filename := index_from_end splitLine 3;
             line := Number (index_from_end splitLine 2);
             row := Number (index_from_end splitLine 1) |}).

Definition getPosition (stackObject : list string) : IErrorPosition :=
  try_catch (getPosition_try stackObject)
    {| filename := Some ""; line := Int 0; row := Int 0 |}.

(** The error object handed to [parseError]: the properties it reads. *)
Record JSError : Type := {
  e_stack : option string;
  e_message : option string;
  e_type : option string;
  e_name : option string
}.

Record IParsedError : Type := {
  p_filename : string;
  p_code : string;
  p_codeFrame : string;
  p_line : number;
  p_row : number;
  p_message : option string;
  p_type : option string;
  p_stack : string
}.

(** Colours taken from the design tokens. *)
Record Colors : Type := {
  background : string; text : string; green : string; darkGreen : string;
  comment : string; keyword : string; yellow : string
}.

Definition colors : Colors :=
  {| background := "fdfaf6"; text := "452475"; green := "137886";
     darkGreen := "006500"; comment := "527713"; keyword := "096fb3";
     yellow := "DB3A00" |}.

(** [path.join(program.directory,
               ...position.filename.split(path.sep).slice(2))] *)
Definition sourceFilename (directory : string) (position : IErrorPosition)
    : result string :=
  match filename position with
  | None => Throw (TypeError "undefined")
  | Some f => Ok (Path.join (directory :: drop 2 (split Path.sep f)))
  end.

(** [fs.readFileSync(p, "utf-8")] over a file system given as a finite
    map from paths of readable files to their text. *)
Definition readFileSync (fs : gmap string string) (p : string)
    : result string :=
  match fs !! p with
  | Some txt => Ok txt
  | None => Throw (ENOENT p)
  end.

Section ParseError.
(** [program.directory], the files on disk, and the composition
    [ansiHTML(codeFrameColumns(code, {start: {line, column}}, ...))]
    of the two formatting libraries under the palette [colors]. *)
Variable directory : string.
Variable fs : gmap string string.
Variable codeFrameHTML : Colors -> string -> number -> number -> string.

Definition parseError (err : JSError) : result IParsedError :=
  let stack :=
    if truthy (e_stack err) then default "" (e_stack err) else "" in
  let stackObject := split "010"%char stack in
  let position := getPosition stackObject in
  bind (sourceFilename directory position) (fun filename =>
  bind (readFileSync fs filename) (fun code =>
  let line := line position in
  let row := row position in
  let codeFrame := codeFrameHTML colors code line row in
  let splitMessage :=
    if truthy (e_message err)
    then split "010"%char (default "" (e_message err))
    else [""] in
  let message := index_from_end splitMessage 1 in
  let type := if truthy (e_type err) then e_type err else e_name err in
  Ok {| p_filename := filename; p_code := code;
        p_codeFrame := codeFrame; p_line := line; p_row := row;
        p_message := message; p_type := type; p_stack := stack |})).
End ParseError.

End ErrorTranslator.


(** ** The request gate: [createDevelopHTMLRoute] *)

Module Gate.
Import JS ErrorTranslator.

(** The member of the enumeration [Stage] of [commands/types] that the
    handler passes on. *)
Inductive Stage : Type :=
| DevelopHTML.

(** The argument of [renderHTML]. *)
Record RenderJob : Type := {
  htmlComponentRendererPath : string;
  paths : list string;
  stage : Stage;
  envVars : list (string * string)
}.

(** How the promise of [renderHTML] settles. *)
Inductive Outcome : Type :=
| Fulfilled (renderResponse : list string)
| Rejected (e : JSError).

(** An event of the parent machine; the listener reads its [type]. *)
Record Event : Type := { ev_type : string }.

(** [program.developMachineService._state.value]: the name of an atomic
    state, or the object that describes a compound one. *)
Inductive StateValue : Type :=
| Atomic (name : string)
| Compound.

(** [value == `waiting`]: an object is never loosely equal to that
    string. *)
Definition is_waiting (v : StateValue) : bool :=
  match v with
  | Atomic name => String.eqb name "waiting"
  | Compound => false
  end.

(** Where the handler of one request stands. *)
Inductive Phase : Type :=
| PassedOn          (* returned [next()] *)
| AwaitAck          (* suspended on the first promise *)
| AckResolved       (* first promise resolved, continuation queued *)
| Polling           (* interval installed, second promise pending *)
| PollResolved      (* second promise resolved, continuation queued *)
| Rendering         (* suspended on [renderHTML] *)
| Returned          (* returned [null] *)
| Failed (e : exn). (* the handler's own promise rejected with [e] *)

(** What the handler and the listener do to the outside world, in the
    order they do it.  Requests are told apart by a number [r]. *)
Inductive Effect : Type :=
| ConsoleLog (what : string)
| Next (r : nat)
| Callback (signal : string)
| Resolve (r : nat)                   (* resolver of [r]'s first promise called *)
| Observe (r : nat) (v : StateValue)  (* [r] reads the machine's state value *)
| ActivityStart (r : nat)
| RenderHTML (r : nat) (job : RenderJob)
| Send (r : nat) (status : nat) (body : option string)
| ActivityEnd (r : nat)
| ListenerThrew (e : exn).

Record State : Type := {
  outsideResolve : option nat;        (* whose resolver the slot holds *)
  machine : StateValue;
  pages : gset string;                (* keys of [store.getState().pages] *)
  requests : gmap nat (string * Phase);
  effects : list Effect               (* latest first *)
}.

Definition emit (es : list Effect) (st : State) : State :=
  {| outsideResolve := outsideResolve st; machine := machine st;
     pages := pages st; requests := requests st;
     effects := rev es ++ effects st |}.

Definition set_phase (r : nat) (path : string) (ph : Phase) (st : State)
    : State :=
  {| outsideResolve := outsideResolve st; machine := machine st;
     pages := pages st; requests := <[r := (path, ph)]> (requests st);
     effects := effects st |}.

Definition set_outsideResolve (r : nat) (st : State) : State :=
  {| outsideResolve := Some r; machine := machine st;
     pages := pages st; requests := requests st;
     effects := effects st |}.

Definition nl : string := String "010"%char EmptyString.
Definition dq : string := String "034"%char EmptyString.

(** The body of the HTTP 500 response. *)
Definition errorPage (path : string) (error : IParsedError) : string :=
  String.concat ""
    [ "<title>Develop SSR Error</title><h1>Error<h1>"; nl;
      "        <h2>The page didn't SSR correctly</h2>"; nl;
      "        <ul>"; nl;
      "          <li><strong>URL path:</strong> <code>"; path;
      "</code></li>"; nl;
      "          <li><strong>File path:</strong> <code>"; p_filename error;
      "</code></li>"; nl;
      "        </ul>"; nl;
      "        <h3>error message</h3>"; nl;
      "        <p><code>"; interpolate (p_message error); "</code></p>"; nl;
      "        <pre style="; dq; "background:#"; background colors;
      ";padding:8px;"; dq; ">"; p_codeFrame error; "</pre>" ].

Section Handler.
(** [program.directory], the files on disk, the code-frame formatter
    and [process.env]. *)
Variable directory : string.
Variable fs : gmap string string.
Variable codeFrameHTML : Colors -> string -> number -> number -> string.
Variable env : gmap string string.

(** [process.env.K || ``] *)
Definition env_or_empty (k : string) : string :=
  if truthy (env !! k) then default "" (env !! k) else "".

Definition renderJob (path : string) : RenderJob :=
  {| htmlComponentRendererPath := directory ++ "/public/render-page.js";
     paths := [path];
     stage := DevelopHTML;
     envVars :=
       [ ("NODE_ENV", env_or_empty "NODE_ENV");
         ("gatsby_executing_command",
          env_or_empty "gatsby_executing_command");
         ("gatsby_log_level", env_or_empty "gatsby_log_level") ] |}.

(** The [onReceive] listener. *)
Definition listener (event : Event) (st : State) : State :=
  let st := emit [ConsoleLog (ev_type event)] st in
  if String.eqb (ev_type event) "SEND_DEVELOP_HTML_RESPONSES" then
    match outsideResolve st with
    | None => emit [ListenerThrew (TypeError "outsideResolve")] st
    | Some r =>
        let st := emit [Resolve r] st in
        match requests st !! r with
        | Some (path, AwaitAck) => set_phase r path AckResolved st
        | _ => st   (* resolving a settled promise does nothing *)
        end
    end
  else st.

(** The handler from its entry to its first suspension. *)
Definition handler_entry (r : nat) (path : string) (st : State) : State :=
  if decide (path ∈ pages st) then
    let st := set_outsideResolve r st in
    let st := emit [Callback "DEVELOP_HTML_REQUEST_RECEIVED";
                    ConsoleLog "waiting for response"] st in
    set_phase r path AwaitAck st
  else
    set_phase r path PassedOn (emit [Next r] st).

(** The executor of the second promise. *)
Definition handler_after_ack (r : nat) (path : string) (st : State)
    : State :=
  let st := emit [Observe r (machine st)] st in
  if is_waiting (machine st) then set_phase r path PollResolved st
  else set_phase r path Polling st.

(** The callback given to [setInterval]. *)
Definition interval_callback (r : nat) (path : string) (st : State)
    : State :=
  let st := emit [Observe r (machine st)] st in
  if is_waiting (machine st) then set_phase r path PollResolved st
  else st.

(** From the end of the poll to the suspension on [renderHTML]. *)
Definition handler_after_poll (r : nat) (path : string) (st : State)
    : State :=
  let st := emit [ActivityStart r; RenderHTML r (renderJob path)] st in
  set_phase r path Rendering st.

(** The rest of the [try] block, the [catch] block and what follows
    them. *)
Definition handler_after_render (r : nat) (path : string) (o : Outcome)
    (st : State) : State :=
  match o with
  | Fulfilled renderResponse =>
      let st := emit [Send r 200 (renderResponse !! 0%nat);
                      ActivityEnd r] st in
      set_phase r path Returned st
  | Rejected e =>
      match parseError directory fs codeFrameHTML e with
      | Ok error =>
          let st := emit [Send r 500 (Some (errorPage path error));
                          ActivityEnd r] st in
          set_phase r path Returned st
      | Throw x => set_phase r path (Failed x) st
      end
  end.

(** What the host can make happen next. *)
Inductive Input : Type :=
| Incoming (r : nat) (path : string)  (* a GET request reaches the route *)
| Receive (event : Event)             (* the parent machine sends an event *)
| Resume (r : nat)                    (* a queued continuation runs *)
| Tick (r : nat)                      (* the interval timer fires *)
| Settle (r : nat) (o : Outcome)      (* the promise of [renderHTML] settles *)
| Transition (v : StateValue)         (* the develop machine moves *)
| StoreUpdate (ps : gset string).     (* the page registry changes *)

Definition step (st : State) (i : Input) : State :=
  match i with
  | Incoming r path =>
      match requests st !! r with
      | None => handler_entry r path st
      | Some _ => st
      end
  | Receive event => listener event st
  | Resume r =>
      match requests st !! r with
      | Some (path, AckResolved) => handler_after_ack r path st
      | Some (path, PollResolved) => handler_after_poll r path st
      | _ => st
      end
  | Tick r =>
      match requests st !! r with
      | Some (path, Polling) => interval_callback r path st
      | _ => st
      end
  | Settle r o =>
      match requests st !! r with
      | Some (path, Rendering) => handler_after_render r path o st
      | _ => st
      end
  | Transition v =>
      {| outsideResolve := outsideResolve st; machine := v;
         pages := pages st; requests := requests st;
         effects := effects st |}
  | StoreUpdate ps =>
      {| outsideResolve := outsideResolve st; machine := machine st;
         pages := ps; requests := requests st;
         effects := effects st |}
  end.

Definition run (st : State) (schedule : list Input) : State :=
  fold_left step schedule st.

(** The effects in the order they happened. *)
Definition history (st : State) : list Effect := rev (effects st).

End Handler.

(** The route right after [createDevelopHTMLRoute] has installed the
    listener and the handler. *)
Definition initial (v : StateValue) (ps : gset string) : State :=
  {| outsideResolve := None; machine := v; pages := ps;
     requests := ∅; effects := [] |}.

End Gate.

(** ** The dev-SSR worker pool: [render-dev-html.ts] *)

Module DevSSR.
Import JS ErrorTranslator.

(** The argument of the child's [renderHTML]. *)
Inductive Args : Type :=
| Warming                                       (* [{ warming: true }] *)
| Page (path htmlComponentRendererPath directory : string).

(** What the child's [renderHTML] may hand back. *)
Inductive Value : Type :=
| VUndefined
| VString (s : string)
| VArray (vs : list string).

Inductive WorkerOutcome : Type :=
| Returned (response : Value)
| Threw (error : JSError).

Inductive CallStatus : Type :=
| Pending
| Finished (o : WorkerOutcome).

(** A [JestWorker] object: the [renderHTML] calls made on it, oldest
    first, and whether [end()] was called. *)
Record Pool : Type := {
  calls : list (Args * CallStatus);
  ended : bool
}.

(** What the module does to pool objects and to its variable [worker],
    in the order it does it. *)
Inductive Op : Type :=
| Created (w : nat)
| Called (w : nat) (a : Args)
| Assigned (w : nat)
| Ended (w : nat).

(** Every pool object created so far, by creation index, and the
    module-level variable [worker] ([None] is [undefined]). *)
Record State : Type := {
  pools : list Pool;
  worker : option nat;
  trace : list Op                     (* latest first *)
}.

(** State-and-exception monad: a [throw] keeps the writes made so far. *)
Definition M (A : Type) : Type := State -> result A * State.

Definition ret {A} (a : A) : M A := fun st => (Ok a, st).

Definition mbind {A B} (m : M A) (k : A -> M B) : M B :=
  fun st =>
    match m st with
    | (Ok a, st') => k a st'
    | (Throw e, st') => (Throw e, st')
    end.

Definition throw {A} (e : exn) : M A := fun st => (Throw e, st).

Notation "x <- m ;; k" := (mbind m (fun x => k))
  (at level 100, m at next level, right associativity).
Notation "m ;;; k" := (mbind m (fun _ => k))
  (at level 100, right associativity).

(** [new JestWorker(...)] *)
Definition new_JestWorker : M nat :=
  fun st =>
    let w := length (pools st) in
    (Ok w,
     {| pools := pools st ++ [{| calls := []; ended := false |}];
        worker := worker st;
        trace := Created w :: trace st |}).

Definition add_call (a : Args) (p : Pool) : Pool :=
  {| calls := calls p ++ [(a, Pending)]; ended := ended p |}.

(** [w.renderHTML(a)]: the call is handed to the pool object and a
    promise comes back, named by the pool and the position of the
    call. *)
Definition call_renderHTML (w : nat) (a : Args) : M (nat * nat) :=
  fun st =>
    let i := match pools st !! w with
             | Some p => length (calls p)
             | None => 0%nat
             end in
    (Ok (w, i),
     {| pools := alter (add_call a) w (pools st);
        worker := worker st;
        trace := Called w a :: trace st |}).

Definition end_pool (p : Pool) : Pool :=
  {| calls := calls p; ended := true |}.

(** [w.end()], on a handle that may be [undefined]. *)
Definition call_end (w : option nat) : M unit :=
  match w with
  | None => throw (TypeError "oldWorker")
  | Some w =>
      fun st =>
        (Ok tt,
         {| pools := alter end_pool w (pools st);
            worker := worker st;
            trace := Ended w :: trace st |})
  end.

Definition read_worker : M (option nat) := fun st => (Ok (worker st), st).

Definition write_worker (w : nat) : M unit :=
  fun st =>
    (Ok tt,
     {| pools := pools st; worker := Some w;
        trace := Assigned w :: trace st |}).

Definition startWorker : M nat :=
  newWorker <- new_JestWorker ;;
  call_renderHTML newWorker Warming ;;;
  ret newWorker.

Definition initDevWorkerPool : M unit :=
  w <- startWorker ;;
  write_worker w.

Definition restartWorker : M unit :=
  oldWorker <- read_worker ;;
  newWorker <- startWorker ;;
  write_worker newWorker ;;;
  call_end oldWorker.

(** The promise built by [renderDevHTML]: it waits for a call made on a
    pool, or was rejected before any call was made. *)
Inductive DevPromise : Type :=
| Awaiting (w i : nat)
| RejectedEarly (e : exn).

(** The executor of [renderDevHTML] up to its [await]. *)
Definition renderDevHTML (path htmlComponentRendererPath directory : string)
    : M DevPromise :=
  w <- read_worker ;;
  match w with
  | None => ret (RejectedEarly (TypeError "worker"))
  | Some w =>
      c <- call_renderHTML w (Page path htmlComponentRendererPath directory) ;;
      ret (Awaiting (fst c) (snd c))
  end.

(** The child finishes call [i] of pool [w]. *)
Definition finish_call (i : nat) (o : WorkerOutcome) (p : Pool) : Pool :=
  {| calls :=
       alter (fun c => match snd c with
                       | Pending => (fst c, Finished o)
                       | Finished _ => c
                       end) i (calls p);
     ended := ended p |}.

Definition worker_finishes (w i : nat) (o : WorkerOutcome) (st : State)
    : State :=
  {| pools := alter (finish_call i o) w (pools st);
     worker := worker st; trace := trace st |}.

Definition call_status (st : State) (w i : nat) : option CallStatus :=
  p ← pools st !! w; c ← calls p !! i; Some (snd c).

(** How a promise is settled. *)
Inductive Settled : Type :=
| ResolvedWith (v : Value)
| RejectedWith (error : JSError)
| RejectedWithExn (e : exn).

(** The rest of the executor after its [await]: [resolve(response)] in
    the [try] block, [reject(error)] in the [catch] block.  [None] while
    the promise is pending. *)
Definition promise_state (st : State) (p : DevPromise) : option Settled :=
  match p with
  | RejectedEarly e => Some (RejectedWithExn e)
  | Awaiting w i =>
      match call_status st w i with
      | Some (Finished (Returned response)) => Some (ResolvedWith response)
      | Some (Finished (Threw error)) => Some (RejectedWith error)
      | _ => None
      end
  end.

(** What callers of the module and the child can make happen. *)
Inductive Action : Type :=
| DoInit
| DoRestart
| DoRender (path htmlComponentRendererPath directory : string)
| DoFinish (w i : nat) (o : WorkerOutcome).

Definition act (st : State) (a : Action) : State :=
  match a with
  | DoInit => snd (initDevWorkerPool st)
  | DoRestart => snd (restartWorker st)
  | DoRender p h d => snd (renderDevHTML p h d st)
  | DoFinish w i o => worker_finishes w i o st
  end.

Definition run (st : State) (script : list Action) : State :=
  fold_left act script st.

(** The jobs a pool has received. *)
Definition received (st : State) (w : nat) : list Args :=
  match pools st !! w with
  | Some p => map fst (calls p)
  | None => []
  end.

(** The module as loaded: no pool, [worker] undefined. *)
Definition loaded : State := {| pools := []; worker := None; trace := [] |}.

End DevSSR.

(** * Properties *)

Import JS ErrorTranslator.
Local Open Scope list_scope.

(** ** Vocabulary *)

(** The stack line and the project root used as the running example. *)
Definition example_frame : string := "at f (/project/lib/render-page.js:42:7)".
Definition example_root : string := "/project".

(** The first line of a stack that has the shape [... (...)]. *)
Definition first_frame (stackObject : list string) : option string :=
  head (List.filter (Regex.test stackLineRe) stackObject).

(** The continuation that the capture group gives to its body: the closing
    part, run with the captured text appended. *)
Definition after_capture (s : string)
    : string -> list string -> option (list string) :=
  fun rest caps' =>
    Regex.run
      (Regex.Seq (Regex.NonCapture (Regex.At (Regex.AChr ")"%char))) Regex.Eos)
      rest
      (caps' ++ [Regex.prefix (String.length s - String.length rest) s])
      (fun _ caps => Some caps).


Import Gate.

(** An error whose stack has no frame line, and one whose frame names a
    file that is not on disk. *)
Definition garbage_error : JSError :=
  {| e_stack := Some "garbage"; e_message := Some "boom";
     e_type := None; e_name := Some "Error" |}.

Definition missing_file_error : JSError :=
  {| e_stack := Some "at render (/lib/src/pages/gone.js:10:3)";
     e_message := Some "boom"; e_type := None; e_name := Some "Error" |}.

(** A request for [/about] that is acknowledged while the machine waits
    and whose render then fails with [e]. *)
Definition failing_request (e : JSError) : list Input :=
  [ Incoming 0 "/about";
    Receive {| ev_type := "SEND_DEVELOP_HTML_RESPONSES" |};
    Resume 0; Resume 0;
    Settle 0 (Rejected e) ].

(** A request that is acknowledged while the machine is busy: two timer
    ticks see [busy], the third sees [waiting]. *)
Definition acknowledged_while_busy : list Input :=
  [ Incoming 0 "/about";
    Receive {| ev_type := "SEND_DEVELOP_HTML_RESPONSES" |};
    Resume 0; Tick 0; Tick 0;
    Transition (Atomic "waiting");
    Tick 0; Resume 0 ].

(** An effect that only the part of the handler after the registry check
    produces for request [r]. *)
Definition past_registry_check (r : nat) (e : Effect) : Prop :=
  match e with
  | Observe r' _ | ActivityStart r' | RenderHTML r' _
  | Send r' _ _ | ActivityEnd r' => r' = r
  | _ => False
  end.

(** [acknowledged from sched r l], where [from s] is the state the route
    reaches by the schedule [s]: in [sched] an event of type
    [SEND_DEVELOP_HTML_RESPONSES] was received at a moment when the slot
    held the resolver of [r] and [r] was suspended on its first promise,
    and the effects [l] (latest first) are those up to that moment, then
    the console line and the call of that resolver by the listener, then
    possibly more. *)
Definition acknowledged (from : list Input -> Gate.State)
    (sched : list Input) (r : nat) (l : list Effect) : Prop :=
  exists before event after path b,
    sched = before ++ Receive event :: after
    /\ ev_type event = "SEND_DEVELOP_HTML_RESPONSES"
    /\ outsideResolve (from before) = Some r
    /\ requests (from before) !! r = Some (path, AwaitAck)
    /\ l = b ++ Resolve r
             :: ConsoleLog "SEND_DEVELOP_HTML_RESPONSES"
             :: effects (from before).

(** [seen_waiting from sched r l]: after such an acknowledgment, at a
    moment of [sched] when the state value of the machine was [waiting],
    the next step made [r] read it, and the effects [l] are those up to
    that moment, then the read, then possibly more. *)
Definition seen_waiting (from : list Input -> Gate.State)
    (sched : list Input) (r : nat) (l : list Effect) : Prop :=
  exists mid i rest c,
    sched = mid ++ i :: rest
    /\ machine (from mid) = Atomic "waiting"
    /\ l = c ++ Observe r (Atomic "waiting") :: effects (from mid)
    /\ acknowledged from mid r (effects (from mid)).

(** Every render call in [l] comes after such an acknowledgment and such
    a read. *)
Definition renders_admitted (from : list Input -> Gate.State)
    (sched : list Input) (l : list Effect) : Prop :=
  forall post r job pre,
    l = post ++ RenderHTML r job :: pre -> seen_waiting from sched r pre.

(** What the schedule and the effects so far must show for a handler in a
    given phase. *)
Definition phase_admitted (from : list Input -> Gate.State)
    (sched : list Input) (l : list Effect) (r : nat) (ph : Phase) : Prop :=
  match ph with
  | AckResolved | Polling => acknowledged from sched r l
  | PollResolved => seen_waiting from sched r l
  | _ => True
  end.

Definition admission_at (from : list Input -> Gate.State)
    (sched : list Input) (st : Gate.State) : Prop :=
  renders_admitted from sched (effects st)
  /\ forall r p ph,
       requests st !! r = Some (p, ph) ->
       phase_admitted from sched (effects st) r ph.

(** The pool object that [startWorker] has just built. *)
Definition warmed_pool : DevSSR.Pool :=
  {| DevSSR.calls := [(DevSSR.Warming, DevSSR.Pending)];
     DevSSR.ended := false |}.

(** The jobs received so far by the pool at index [w] of a list of pool
    objects. *)
Definition jobs (ps : list DevSSR.Pool) (w : nat) : list DevSSR.Args :=
  match ps !! w with
  | Some p => map fst (DevSSR.calls p)
  | None => []
  end.

(** What every later action preserves once the handle points past the
    pool [old]. *)
Definition past (old : nat) (js : list DevSSR.Args) (st : DevSSR.State)
    : Prop :=
  (old < length (DevSSR.pools st))%nat
  /\ (forall w, DevSSR.worker st = Some w -> (old < w)%nat)
  /\ jobs (DevSSR.pools st) old = js.

(** An action that does not assign the variable [worker]. *)
Definition keeps_handle (a : DevSSR.Action) : Prop :=
  match a with
  | DevSSR.DoInit | DevSSR.DoRestart => False
  | _ => True
  end.



(** *** More vocabulary: stack texts *)

(** The number of occurrences of a character in a string. *)
Fixpoint count_char (c : ascii) (s : string) : nat :=
  match s with
  | EmptyString => 0
  | String d s' => (if Ascii.eqb d c then 1 else 0) + count_char c s'
  end.

(** A string without line terminators: every character is matched by the
    dot of a regular expression. *)
Definition one_line (s : string) : Prop :=
  JS.all_of (Regex.atom_ok Regex.ADot) s = true.

(** A stack line of the usual shape: some text without an opening
    parenthesis, then [(file:line:column)]. *)
Definition frame_line (pre file ln col : string) : string :=
  (pre ++ "(" ++ file ++ ":" ++ ln ++ ":" ++ col ++ ")")%string.

(** The text that [parseError] splits into lines: [err.stack], or the
    empty string when that is falsy. *)
Definition stack_text (err : JSError) : string :=
  if truthy (e_stack err) then default "" (e_stack err) else "".

(** The first line of a text. *)
Definition first_line (s : string) : string :=
  default "" (head (split "010"%char s)).

(** [x] occurs in [s]. *)
Definition occurs (x s : string) : Prop :=
  exists a b, s = (a ++ x ++ b)%string.

(** *** More vocabulary: responses *)

Definition is_render (r : nat) (e : Effect) : bool :=
  match e with
  | RenderHTML r' _ => Nat.eqb r' r
  | _ => false
  end.

Definition is_send (r : nat) (e : Effect) : bool :=
  match e with
  | Send r' _ _ => Nat.eqb r' r
  | _ => false
  end.

(** The numbers of render calls and of responses of request [r] among
    some effects. *)
Definition tally (r : nat) (l : list Effect) : nat * nat :=
  (length (List.filter (is_render r) l), length (List.filter (is_send r) l)).

(** The tally that goes with each phase of a handler. *)
Definition expected_tally (ph : option Phase) : nat * nat :=
  match ph with
  | Some Rendering | Some (Failed _) => (1, 0)%nat
  | Some Returned => (1, 1)%nat
  | _ => (0, 0)%nat
  end.

(** In effects listed latest first, every response has status 200 or
    500, is followed at once by the end of the activity, and comes after a
    render call of the same request. *)
Definition responses_closed (l : list Effect) : Prop :=
  forall post r status body pre,
    l = post ++ Send r status body :: pre ->
    (status = 200 \/ status = 500)%nat
    /\ (exists post', post = post' ++ [ActivityEnd r])
    /\ exists job, RenderHTML r job ∈ pre.

Definition response_invariant (st : Gate.State) : Prop :=
  (forall r, tally r (effects st)
             = expected_tally (snd <$> requests st !! r))
  /\ responses_closed (effects st)
  /\ forall r p,
       requests st !! r = Some (p, Rendering) ->
       exists job, RenderHTML r job ∈ effects st.

(** An effect that shows the handler of request [r] being woken or
    running past its first suspension. *)
Definition wakes (r : nat) (e : Effect) : Prop :=
  e = Resolve r \/ past_registry_check r e.

(** The acknowledgment event. *)
Definition acknowledgment : Event :=
  {| ev_type := "SEND_DEVELOP_HTML_RESPONSES" |}.

(** A request that is acknowledged while the machine is busy, polls [n]
    times in vain, sees [waiting] on the next tick after the machine has
    become idle, and whose render succeeds with [renderResponse]. *)
Definition served_after_polling (r : nat) (path : string) (n : nat)
    (renderResponse : list string) : list Input :=
  [Incoming r path; Receive acknowledgment; Resume r]
  ++ repeat (Tick r) n
  ++ [Transition (Atomic "waiting"); Tick r; Resume r;
      Settle r (Fulfilled renderResponse)].

(** *** More vocabulary: pools *)


(** A pool whose first job is the warming call and whose other jobs are
    page renders. *)
Definition warmed_once (pool : DevSSR.Pool) : Prop :=
  exists rest,
    map fst (DevSSR.calls pool) = DevSSR.Warming :: rest
    /\ Forall (fun a => a <> DevSSR.Warming) rest.

(** ** The error translator *)

(** Once the list of matching lines is known to start with a given line,
    [getPosition] depends on that line alone. *)
Lemma getPosition_of_first_frame (stackObject : list string) (l : string) :
  first_frame stackObject = Some l ->
  getPosition stackObject = getPosition [l].
Proof.
  unfold first_frame, getPosition, getPosition_try.
  intros H.
  assert (Hl : Regex.test stackLineRe l = true).
  { destruct (List.filter (Regex.test stackLineRe) stackObject) as [|x xs] eqn:E;
      [discriminate|].
    injection H as ->.
    assert (In l (List.filter (Regex.test stackLineRe) stackObject))
      by (rewrite E; left; reflexivity).
    apply List.filter_In in H. tauto. }
  destruct (List.filter (Regex.test stackLineRe) stackObject) as [|x xs];
    [discriminate|].
  injection H as ->.
  cbn [List.filter]. rewrite Hl. reflexivity.
Qed.

(** C3, as the code has it: for every stack whose first matching line is
    [at f (/project/lib/render-page.js:42:7)] and the project root
    [/project], [getPosition] yields the file [/project/lib/render-page.js],
    line 42 and column 7, and the join of [parseError] drops the two
    leading segments (the empty one before the first slash, and [project])
    and yields [/project/lib/render-page.js] again: the [lib] segment
    stays. *)
Theorem example_frame_translation (stackObject : list string) :
  first_frame stackObject = Some example_frame ->
  getPosition stackObject
  = {| filename := Some "/project/lib/render-page.js";
       line := Int 42; row := Int 7 |}
  /\ sourceFilename example_root (getPosition stackObject)
     = Ok "/project/lib/render-page.js".
Proof.
  intros H. rewrite (getPosition_of_first_frame _ _ H).
  split; vm_compute; reflexivity.
Qed.

Lemma example_frame_translation_witness :
  let stackObject :=
    ["Error: boom"; example_frame; "at g (/project/lib/other.js:1:2)"] in
  getPosition stackObject
  = {| filename := Some "/project/lib/render-page.js";
       line := Int 42; row := Int 7 |}
  /\ sourceFilename example_root (getPosition stackObject)
     = Ok "/project/lib/render-page.js".
Proof.
  apply (example_frame_translation
           ["Error: boom"; example_frame; "at g (/project/lib/other.js:1:2)"]).
  reflexivity.
Defined.

(** C3, as the specification words it, fails: on the stack made of the
    example line alone the reconstructed file name is not
    [/project/render-page.js]. *)
Lemma example_frame_not_stripped_of_lib :
  first_frame [example_frame] = Some example_frame
  /\ sourceFilename example_root (getPosition [example_frame])
     <> Ok "/project/render-page.js".
Proof.
  split; [reflexivity|]. vm_compute. discriminate.
Qed.

(** The layout the join is written for: a file name that starts with the
    [/lib/] segment added by the bundler. *)
Example bundler_prefix_is_removed :
  sourceFilename example_root
    (getPosition ["    at Module.render (/lib/src/pages/index.js:10:3)"])
  = Ok "/project/src/pages/index.js".
Proof. reflexivity. Qed.

(** C4: on the one-line stack [garbage] no line has the shape
    [... (...)], the line is split at colons into a single piece, and the
    [try] block completes without an exception: indexing before the start
    of that one-element array gives [undefined], so the file name is
    [undefined], and line and column are [NaN].  The values of the [catch]
    block (empty name, zero, zero) are not used. *)
Theorem getPosition_garbage :
  getPosition_try ["garbage"]
  = Ok {| filename := None; line := NaN; row := NaN |}
  /\ getPosition ["garbage"] = {| filename := None; line := NaN; row := NaN |}
  /\ getPosition ["garbage"]
     <> {| filename := Some ""; line := Int 0; row := Int 0 |}.
Proof.
  repeat split; try reflexivity. vm_compute. discriminate.
Qed.

(** *** The [catch] block of [getPosition] *)





Lemma run_stackFileRe c s :
  Regex.run stackFileRe (String c s) [] (fun _ caps => Some caps)
  = if Regex.atom_ok (Regex.AChr "("%char) c
    then Regex.run (Regex.LazyPlus Regex.ADot) s [] (after_capture s)
    else None.
Proof. reflexivity. Qed.






Lemma split_not_nil sep s : JS.split sep s <> [].
Proof.
  destruct s as [|c s]; cbn; [discriminate|].
  destruct (Ascii.eqb c sep); [discriminate|].
  destruct (JS.split sep s); discriminate.
Qed.


(** ** The request gate *)

(** When [parseError] throws, the handler stops there: it writes nothing
    and its own promise is rejected. *)
Lemma handler_after_render_throw directory fs codeFrameHTML r path e x st :
  parseError directory fs codeFrameHTML e = Throw x ->
  handler_after_render directory fs codeFrameHTML r path (Rejected e) st
  = set_phase r path (Failed x) st.
Proof. intros H. unfold handler_after_render. rewrite H. reflexivity. Qed.

(** C2: a render failure whose stack is [garbage] makes [parseError] throw
    a [TypeError] (it calls [split] on the [undefined] file name), and one
    whose frame names an unreadable file makes it throw the error of
    [readFileSync]; in both cases the [catch] block of the handler is left
    by that second exception, no response is written, no effect at all is
    added, and the handler's promise is rejected. *)
Theorem render_failure_escapes_handler directory fs codeFrameHTML r path st :
  parseError directory fs codeFrameHTML garbage_error
  = Throw (TypeError "undefined")
  /\ handler_after_render directory fs codeFrameHTML r path
       (Rejected garbage_error) st
     = set_phase r path (Failed (TypeError "undefined")) st
  /\ parseError "/project" ∅ codeFrameHTML missing_file_error
     = Throw (ENOENT "/project/src/pages/gone.js")
  /\ handler_after_render "/project" ∅ codeFrameHTML r path
       (Rejected missing_file_error) st
     = set_phase r path (Failed (ENOENT "/project/src/pages/gone.js")) st
  /\ effects (handler_after_render directory fs codeFrameHTML r path
                (Rejected garbage_error) st)
     = effects st.
Proof.
  assert (H1 : parseError directory fs codeFrameHTML garbage_error
               = Throw (TypeError "undefined")) by reflexivity.
  assert (H2 : parseError "/project" ∅ codeFrameHTML missing_file_error
               = Throw (ENOENT "/project/src/pages/gone.js")) by reflexivity.
  split; [exact H1|].
  split; [apply handler_after_render_throw; exact H1|].
  split; [exact H2|].
  split; [apply handler_after_render_throw; exact H2|].
  rewrite (handler_after_render_throw _ _ _ _ _ _ _ _ H1). reflexivity.
Qed.

(** C8: a request for the registered path [/about] is acknowledged while
    the machine waits and its render fails with the [garbage] error: the
    activity is started, the render is requested, and nothing follows.
    [htmlActivity.end()] is never reached, because [parseError] throws
    inside the [catch] block, and no response is written. *)
Theorem activity_not_ended_when_translation_throws
    directory fs codeFrameHTML env :
  let st := run directory fs codeFrameHTML env
              (initial (Atomic "waiting") {[ "/about" ]})
              (failing_request garbage_error) in
  history st
  = [ Callback "DEVELOP_HTML_REQUEST_RECEIVED";
      ConsoleLog "waiting for response";
      ConsoleLog "SEND_DEVELOP_HTML_RESPONSES";
      Resolve 0;
      Observe 0 (Atomic "waiting");
      ActivityStart 0;
      RenderHTML 0 (renderJob directory env "/about") ]
  /\ requests st !! 0%nat = Some ("/about", Failed (TypeError "undefined")).
Proof. split; reflexivity. Qed.

(** On the paths where a response is written the activity is ended right
    after it. *)
Lemma handler_after_render_ends_activity directory fs codeFrameHTML r path o st :
  (forall x, requests (handler_after_render directory fs codeFrameHTML
                         r path o st) !! r <> Some (path, Failed x)) ->
  exists status body,
    effects (handler_after_render directory fs codeFrameHTML r path o st)
    = ActivityEnd r :: Send r status body :: effects st.
Proof.
  unfold handler_after_render. intros H.
  destruct o as [resp|e].
  - do 2 eexists. reflexivity.
  - destruct (parseError directory fs codeFrameHTML e) as [err|x].
    + do 2 eexists. reflexivity.
    + exfalso. apply (H x). cbn. apply lookup_insert_eq.
Qed.

(** C10: with no resolver stored, an event of type
    [SEND_DEVELOP_HTML_RESPONSES] makes the listener call [undefined] and
    throw; an event of any other type changes neither the slot nor any
    request, and the only effect is the console line. *)
Theorem listener_without_resolver_or_other_event
    (event : Event) (st : State) :
  (outsideResolve st = None ->
   ev_type event = "SEND_DEVELOP_HTML_RESPONSES" ->
   listener event st
   = emit [ConsoleLog (ev_type event);
           ListenerThrew (TypeError "outsideResolve")] st)
  /\ (ev_type event <> "SEND_DEVELOP_HTML_RESPONSES" ->
      listener event st = emit [ConsoleLog (ev_type event)] st
      /\ outsideResolve (listener event st) = outsideResolve st
      /\ requests (listener event st) = requests st
      /\ effects (listener event st)
         = ConsoleLog (ev_type event) :: effects st).
Proof.
  unfold listener. split.
  - intros Hnone Hty. rewrite Hty. cbn. rewrite Hnone. reflexivity.
  - intros Hty.
    destruct (String.eqb_spec (ev_type event) "SEND_DEVELOP_HTML_RESPONSES");
      [contradiction|].
    repeat split; reflexivity.
Qed.

Lemma listener_without_resolver_or_other_event_witness :
  listener {| ev_type := "SEND_DEVELOP_HTML_RESPONSES" |}
    (initial (Atomic "waiting") ∅)
  = emit [ConsoleLog "SEND_DEVELOP_HTML_RESPONSES";
          ListenerThrew (TypeError "outsideResolve")]
      (initial (Atomic "waiting") ∅)
  /\ effects (listener {| ev_type := "OTHER" |} (initial (Atomic "waiting") ∅))
     = [ConsoleLog "OTHER"].
Proof.
  split.
  - apply (proj1 (listener_without_resolver_or_other_event
                    {| ev_type := "SEND_DEVELOP_HTML_RESPONSES" |}
                    (initial (Atomic "waiting") ∅))); reflexivity.
  - apply (proj2 (listener_without_resolver_or_other_event
                    {| ev_type := "OTHER" |}
                    (initial (Atomic "waiting") ∅))).
    discriminate.
Defined.

(** *** Runs of the route *)

Section Runs.
Variable directory : string.
Variable fs : gmap string string.
Variable codeFrameHTML : Colors -> string -> number -> number -> string.
Variable env : gmap string string.

Abbreviation step := (step directory fs codeFrameHTML env).
Abbreviation run := (run directory fs codeFrameHTML env).

Lemma run_cons st schedule i :
  run st (i :: schedule) = run (step st i) schedule.
Proof. reflexivity. Qed.

(** A step taken while request [r] has been passed on leaves it passed
    on and adds no effect of [r]'s handler. *)
Lemma step_keeps_passed_on st i r path :
  requests st !! r = Some (path, PassedOn) ->
  requests (step st i) !! r = Some (path, PassedOn)
  /\ exists new,
       effects (step st i) = new ++ effects st
       /\ Forall (fun e => ~ past_registry_check r e) new.
Proof.
  intros H.
  assert (Hne : forall q p ph, requests st !! q = Some (p, ph) ->
                               ph <> PassedOn -> q <> r)
    by (intros q p ph Hq Hph ->; rewrite H in Hq; congruence).
  destruct i as [q p|event|q|q|q o|v|ps]; cbn [Gate.step].
  - destruct (requests st !! q) as [[p' ph]|] eqn:E.
    + split; [exact H|]. exists []. split; [reflexivity|constructor].
    + assert (q <> r) by (intros ->; congruence).
      unfold handler_entry. destruct (decide (p ∈ pages st)); cbn.
      * rewrite lookup_insert_ne by assumption. split; [exact H|].
        eexists [_; _]. split; [reflexivity|]. repeat constructor; cbn; tauto.
      * rewrite lookup_insert_ne by assumption. split; [exact H|].
        eexists [_]. split; [reflexivity|]. repeat constructor; cbn; tauto.
  - unfold listener.
    destruct (String.eqb (ev_type event) "SEND_DEVELOP_HTML_RESPONSES").
    + cbn. destruct (outsideResolve st) as [q|]; cbn.
      * destruct (requests st !! q) as [[p' ph]|] eqn:E; cbn.
        -- destruct ph; cbn;
             try (split; [exact H|]; eexists [_; _];
                  split; [reflexivity|]; repeat constructor; cbn; tauto).
           rewrite lookup_insert_ne by (eapply Hne; [exact E|discriminate]).
           split; [exact H|]. eexists [_; _].
           split; [reflexivity|]. repeat constructor; cbn; tauto.
        -- split; [exact H|]. eexists [_; _].
           split; [reflexivity|]. repeat constructor; cbn; tauto.
      * split; [exact H|]. eexists [_; _].
        split; [reflexivity|]. repeat constructor; cbn; tauto.
    + cbn. split; [exact H|]. eexists [_].
      split; [reflexivity|]. repeat constructor; cbn; tauto.
  - destruct (requests st !! q) as [[p' ph]|] eqn:E;
      [|split; [exact H|]; exists []; split; [reflexivity|constructor]].
    destruct ph;
      try (split; [exact H|]; exists []; split; [reflexivity|constructor]).
    + assert (q <> r) by (eapply Hne; [exact E|discriminate]).
      unfold handler_after_ack. cbn.
      destruct (is_waiting (machine st)); cbn;
        rewrite lookup_insert_ne by assumption;
        (split; [exact H|]); eexists [_];
        (split; [reflexivity|]); repeat constructor; cbn; congruence.
    + assert (q <> r) by (eapply Hne; [exact E|discriminate]).
      unfold handler_after_poll. cbn.
      rewrite lookup_insert_ne by assumption.
      split; [exact H|]. eexists [_; _].
      split; [reflexivity|]. repeat constructor; cbn; congruence.
  - destruct (requests st !! q) as [[p' ph]|] eqn:E;
      [|split; [exact H|]; exists []; split; [reflexivity|constructor]].
    destruct ph;
      try (split; [exact H|]; exists []; split; [reflexivity|constructor]).
    assert (q <> r) by (eapply Hne; [exact E|discriminate]).
    unfold interval_callback. cbn.
    destruct (is_waiting (machine st)); cbn;
      try rewrite lookup_insert_ne by assumption;
      (split; [exact H|]); eexists [_];
      (split; [reflexivity|]); repeat constructor; cbn; congruence.
  - destruct (requests st !! q) as [[p' ph]|] eqn:E;
      [|split; [exact H|]; exists []; split; [reflexivity|constructor]].
    destruct ph;
      try (split; [exact H|]; exists []; split; [reflexivity|constructor]).
    assert (q <> r) by (eapply Hne; [exact E|discriminate]).
    unfold handler_after_render.
    destruct o as [resp|e];
      [|destruct (parseError directory fs codeFrameHTML e)]; cbn;
      rewrite lookup_insert_ne by assumption;
      (split; [exact H|]).
    + eexists [_; _]. split; [reflexivity|].
      repeat constructor; cbn; congruence.
    + eexists [_; _]. split; [reflexivity|].
      repeat constructor; cbn; congruence.
    + exists []. split; [reflexivity|constructor].
  - split; [exact H|]. exists []. split; [reflexivity|constructor].
  - split; [exact H|]. exists []. split; [reflexivity|constructor].
Qed.

Lemma run_keeps_passed_on schedule st r path :
  requests st !! r = Some (path, PassedOn) ->
  requests (run st schedule) !! r = Some (path, PassedOn)
  /\ exists new,
       effects (run st schedule) = new ++ effects st
       /\ Forall (fun e => ~ past_registry_check r e) new.
Proof.
  revert st. induction schedule as [|i schedule IH]; intros st H.
  - split; [exact H|]. exists []. split; [reflexivity|constructor].
  - rewrite run_cons.
    destruct (step_keeps_passed_on st i r path H) as [H1 [n1 [E1 F1]]].
    destruct (IH _ H1) as [H2 [n2 [E2 F2]]].
    split; [exact H2|]. exists (n2 ++ n1). split.
    + rewrite E2, E1. apply app_assoc.
    + apply Forall_app. split; assumption.
Qed.

End Runs.

(** *** The order of acknowledgment, observation and render *)

Lemma is_waiting_true v : is_waiting v = true -> v = Atomic "waiting".
Proof.
  destruct v as [name|]; cbn; [|discriminate].
  intros H. apply String.eqb_eq in H. congruence.
Qed.

Lemma acknowledged_more from sched extra r new l :
  acknowledged from sched r l ->
  acknowledged from (sched ++ extra) r (new ++ l).
Proof.
  intros (before & event & after & path & b & -> & Hty & Hslot & Hph & ->).
  exists before, event, (after ++ extra), path, (new ++ b).
  repeat split; try assumption.
  - rewrite <- app_assoc. reflexivity.
  - rewrite <- app_assoc. reflexivity.
Qed.

Lemma seen_waiting_more from sched extra r new l :
  seen_waiting from sched r l ->
  seen_waiting from (sched ++ extra) r (new ++ l).
Proof.
  intros (mid & i & rest & c & -> & Hm & -> & Hack).
  exists mid, i, (rest ++ extra), (new ++ c).
  repeat split; try assumption.
  - rewrite <- app_assoc. reflexivity.
  - rewrite <- app_assoc. reflexivity.
Qed.

Lemma phase_admitted_more from sched extra l new r ph :
  phase_admitted from sched l r ph ->
  phase_admitted from (sched ++ extra) (new ++ l) r ph.
Proof.
  destruct ph; cbn; trivial.
  - apply acknowledged_more.
  - apply acknowledged_more.
  - apply seen_waiting_more.
Qed.

Lemma renders_admitted_more from sched extra l :
  renders_admitted from sched l -> renders_admitted from (sched ++ extra) l.
Proof.
  intros H post r job pre Heq.
  apply (seen_waiting_more _ _ extra _ []). eapply H. exact Heq.
Qed.

Lemma renders_admitted_cons from sched e l :
  (forall r job, e = RenderHTML r job -> seen_waiting from sched r l) ->
  renders_admitted from sched l -> renders_admitted from sched (e :: l).
Proof.
  intros He Hl post r job pre Heq.
  destruct post as [|x post]; cbn in Heq.
  - injection Heq as -> ->. eapply He. reflexivity.
  - injection Heq as -> Heq. eapply Hl. exact Heq.
Qed.

Lemma admission_at_more from sched extra st :
  admission_at from sched st -> admission_at from (sched ++ extra) st.
Proof.
  intros [Hd Hp]. split.
  - apply renders_admitted_more. exact Hd.
  - intros r p ph H. apply (phase_admitted_more _ _ extra _ []).
    eapply Hp. exact H.
Qed.

(** The invariant after some effects and a change of phase of [q]. *)
Lemma admission_at_update from sched st es q p ph :
  admission_at from sched st ->
  renders_admitted from sched (rev es ++ effects st) ->
  phase_admitted from sched (rev es ++ effects st) q ph ->
  admission_at from sched (set_phase q p ph (emit es st)).
Proof.
  intros [Hd Hp] Hd' Hq. split; [exact Hd'|].
  intros r p' ph' H. cbn in H |- *.
  destruct (decide (q = r)) as [->|Hne].
  - rewrite lookup_insert_eq in H. injection H as <- <-. exact Hq.
  - rewrite lookup_insert_ne in H by assumption.
    rewrite <- (app_nil_r sched).
    apply phase_admitted_more. eapply Hp. exact H.
Qed.

Lemma admission_at_emit from sched st es :
  admission_at from sched st ->
  renders_admitted from sched (rev es ++ effects st) ->
  admission_at from sched (emit es st).
Proof.
  intros [Hd Hp] Hd'. split; [exact Hd'|].
  intros r p ph H. cbn in H |- *.
  rewrite <- (app_nil_r sched).
  apply phase_admitted_more. eapply Hp. exact H.
Qed.

Ltac quiet_effects :=
  cbn [rev app];
  repeat (apply renders_admitted_cons; [intros ? ? ?; discriminate|]);
  try assumption.

Section Ordering.
Variable directory : string.
Variable fs : gmap string string.
Variable codeFrameHTML : Colors -> string -> number -> number -> string.
Variable env : gmap string string.
Variable v0 : StateValue.
Variable ps : gset string.

Abbreviation step := (step directory fs codeFrameHTML env).
Abbreviation from := (run directory fs codeFrameHTML env (initial v0 ps)).

Lemma from_snoc sched i : from (sched ++ [i]) = step (from sched) i.
Proof. unfold Gate.run. rewrite fold_left_app. reflexivity. Qed.

(** One more step of the schedule keeps the invariant. *)
Lemma step_admission sched i :
  admission_at from sched (from sched) ->
  admission_at from (sched ++ [i]) (from (sched ++ [i])).
Proof.
  intros Hold. rewrite from_snoc.
  pose proof (admission_at_more _ _ [i] _ Hold) as Hinv.
  pose proof Hinv as [Hd Hp].
  pose proof Hold as [_ Hpold].
  remember (from sched) as st eqn:Est.
  destruct i as [q p|event|q|q|q o|v|ps']; cbn [Gate.step].
  - destruct (requests st !! q) as [[p' ph]|] eqn:E; [exact Hinv|].
    unfold handler_entry. destruct (decide (p ∈ pages st)).
    + apply (admission_at_update _ _
               (set_outsideResolve q st)
               [Callback "DEVELOP_HTML_REQUEST_RECEIVED";
                ConsoleLog "waiting for response"] q p AwaitAck).
      * exact Hinv.
      * cbn [effects set_outsideResolve]. quiet_effects.
      * exact I.
    + apply admission_at_update; [exact Hinv| |exact I]. quiet_effects.
  - unfold listener.
    assert (H1 : admission_at from (sched ++ [Receive event])
                   (emit [ConsoleLog (ev_type event)] st))
      by (apply admission_at_emit; [exact Hinv|quiet_effects]).
    destruct (String.eqb_spec (ev_type event) "SEND_DEVELOP_HTML_RESPONSES")
      as [Hty|_]; [|exact H1].
    cbn [outsideResolve emit].
    destruct (outsideResolve st) as [q|] eqn:Eslot.
    + assert (H2 : admission_at from (sched ++ [Receive event])
                     (emit [Resolve q] (emit [ConsoleLog (ev_type event)] st)))
        by (apply admission_at_emit; [exact H1|];
            pose proof (proj1 H1); quiet_effects).
      cbn [requests emit].
      destruct (requests st !! q) as [[p' ph]|] eqn:E; [|exact H2].
      destruct ph; try exact H2.
      apply (admission_at_update _ _
               (emit [ConsoleLog (ev_type event)] st) [Resolve q]
               q p' AckResolved); [exact H1| |].
      * pose proof (proj1 H1). quiet_effects.
      * cbn. exists sched, event, [], p', [].
        rewrite Hty, <- Est. repeat split; assumption.
    + apply admission_at_emit; [exact H1|].
      pose proof (proj1 H1). quiet_effects.
  - destruct (requests st !! q) as [[p ph]|] eqn:E; [|exact Hinv].
    destruct ph; try exact Hinv.
    + (* the executor of the second promise *)
      pose proof (Hp _ _ _ E) as Hack. cbn in Hack.
      pose proof (Hpold _ _ _ E) as Hackold. cbn in Hackold.
      unfold handler_after_ack. cbn [machine emit].
      destruct (is_waiting (machine st)) eqn:W.
      * apply admission_at_update; [exact Hinv|quiet_effects|].
        cbn. rewrite (is_waiting_true _ W).
        exists sched, (Resume q), [], [].
        rewrite <- Est. repeat split; try assumption.
        apply is_waiting_true. exact W.
      * apply admission_at_update; [exact Hinv|quiet_effects|].
        cbn. rewrite <- (app_nil_r (sched ++ [Resume q])).
        apply (acknowledged_more _ _ [] _ [_]). exact Hack.
    + (* the render call *)
      pose proof (Hp _ _ _ E) as Hg. cbn in Hg.
      unfold handler_after_poll.
      apply admission_at_update; [exact Hinv| |exact I].
      cbn [rev app].
      apply renders_admitted_cons.
      * intros r job Heq. injection Heq as <- _.
        rewrite <- (app_nil_r (sched ++ [Resume q])).
        apply (seen_waiting_more _ _ [] _ [_]). exact Hg.
      * quiet_effects.
  - destruct (requests st !! q) as [[p ph]|] eqn:E; [|exact Hinv].
    destruct ph; try exact Hinv.
    pose proof (Hpold _ _ _ E) as Hackold. cbn in Hackold.
    unfold interval_callback. cbn [machine emit].
    destruct (is_waiting (machine st)) eqn:W.
    + apply admission_at_update; [exact Hinv|quiet_effects|].
      cbn. rewrite (is_waiting_true _ W).
      exists sched, (Tick q), [], [].
      rewrite <- Est. repeat split; try assumption.
      apply is_waiting_true. exact W.
    + apply admission_at_emit; [exact Hinv|quiet_effects].
  - destruct (requests st !! q) as [[p ph]|] eqn:E; [|exact Hinv].
    destruct ph; try exact Hinv.
    unfold handler_after_render.
    destruct o as [resp|e];
      [|destruct (parseError directory fs codeFrameHTML e)].
    + apply admission_at_update; [exact Hinv|quiet_effects|exact I].
    + apply admission_at_update; [exact Hinv|quiet_effects|exact I].
    + apply (admission_at_update _ _ st []); [exact Hinv|exact Hd|exact I].
  - exact Hinv.
  - exact Hinv.
Qed.

Lemma from_admission sched : admission_at from sched (from sched).
Proof.
  induction sched as [|i sched IH] using rev_ind.
  - split.
    + intros post r job pre H. destruct post; discriminate.
    + intros r p ph H. cbn in H. rewrite lookup_empty in H. discriminate.
  - apply step_admission. exact IH.
Qed.

End Ordering.

(** C1: in every run of the route from its initial state, under every
    schedule of requests, events, timer ticks, continuations, machine
    transitions and registry updates, a call of [renderHTML] for a request
    [r] has this past.  An event of type [SEND_DEVELOP_HTML_RESPONSES] was
    received at a moment when the slot held the resolver of [r] and [r]
    was suspended on its first promise, and the listener called that
    resolver (the effect at index [j], right after the console line of
    the event).  Later, at a moment when the state value of the machine
    was [waiting], the next step made [r] read it (the effect at index
    [k]).  The render call comes after both: [j < k < i]. *)
Theorem render_waits_for_ack_and_waiting
    directory fs codeFrameHTML env v0 ps schedule (i r : nat) job :
  let from := Gate.run directory fs codeFrameHTML env (initial v0 ps) in
  history (from schedule) !! i = Some (RenderHTML r job) ->
  exists before event between reader after path,
    schedule = before ++ Receive event :: between ++ reader :: after
    /\ ev_type event = "SEND_DEVELOP_HTML_RESPONSES"
    /\ outsideResolve (from before) = Some r
    /\ requests (from before) !! r = Some (path, AwaitAck)
    /\ machine (from (before ++ Receive event :: between)) = Atomic "waiting"
    /\ let j := S (length (history (from before))) in
       let k := length (history (from (before ++ Receive event :: between))) in
       history (from schedule) !! j = Some (Resolve r)
       /\ history (from schedule) !! k = Some (Observe r (Atomic "waiting"))
       /\ (j < k)%nat /\ (k < i)%nat.
Proof.
  intros from Hi.
  set (st := from schedule) in *.
  destruct (from_admission directory fs codeFrameHTML env v0 ps schedule)
    as [Hd _].
  fold from in Hd. fold st in Hd.
  pose proof (lookup_lt_Some _ _ _ Hi) as Hlen.
  pose proof (take_drop_middle _ _ _ Hi) as Hsplit.
  assert (Heff : effects st
                 = rev (drop (S i) (history st))
                   ++ RenderHTML r job :: rev (take i (history st))).
  { rewrite <- (rev_involutive (effects st)).
    change (rev (effects st)) with (history st).
    rewrite <- Hsplit at 1.
    rewrite rev_app_distr. cbn [rev]. rewrite <- app_assoc. reflexivity. }
  destruct (Hd _ _ _ _ Heff)
    as (mid & reader & after & c & Hsched & Hm & Hpre & Hack).
  destruct Hack
    as (before & event & between & path & b & Hmid & Hty & Hslot & Hph & Hb).
  exists before, event, between, reader, after, path.
  rewrite <- Hmid.
  split; [rewrite Hsched, Hmid, <- app_assoc; reflexivity|].
  split; [exact Hty|]. split; [exact Hslot|]. split; [exact Hph|].
  split; [exact Hm|]. cbv zeta.
  assert (Hmidh : history (from mid)
                  = history (from before)
                    ++ ConsoleLog "SEND_DEVELOP_HTML_RESPONSES"
                    :: Resolve r :: rev b).
  { unfold history. rewrite Hb, rev_app_distr. cbn [rev].
    rewrite <- !app_assoc. reflexivity. }
  assert (Htake : take i (history st)
                  = history (from mid)
                    ++ Observe r (Atomic "waiting") :: rev c).
  { rewrite <- (rev_involutive (take i (history st))), Hpre.
    rewrite rev_app_distr. cbn [rev]. rewrite <- app_assoc. reflexivity. }
  assert (Hleni : length (take i (history st)) = i)
    by (rewrite length_take; lia).
  rewrite Htake, length_app in Hleni. cbn [length] in Hleni.
  assert (Hlenk : length (history (from mid))
                  = (length (history (from before)) + 2 + length (rev b))%nat)
    by (rewrite Hmidh, length_app; cbn [length]; lia).
  split; [|split; [|split; [lia|lia]]].
  - rewrite <- Hsplit, Htake, Hmidh.
    rewrite <- !app_assoc.
    replace (history (from before)
             ++ (ConsoleLog "SEND_DEVELOP_HTML_RESPONSES" :: Resolve r :: rev b)
             ++ (Observe r (Atomic "waiting") :: rev c)
             ++ RenderHTML r job :: drop (S i) (history st))
      with ((history (from before)
             ++ [ConsoleLog "SEND_DEVELOP_HTML_RESPONSES"])
            ++ Resolve r
            :: (rev b ++ (Observe r (Atomic "waiting") :: rev c)
                ++ RenderHTML r job :: drop (S i) (history st)))
      by (rewrite <- !app_assoc; reflexivity).
    apply list_lookup_middle. rewrite length_app. cbn [length]. lia.
  - rewrite <- Hsplit, Htake. rewrite <- app_assoc.
    apply list_lookup_middle. reflexivity.
Qed.

Lemma render_waits_for_ack_and_waiting_witness :
  let from := Gate.run "/project" ∅ (fun _ code _ _ => code) ∅
                (initial (Atomic "busy") {[ "/about" ]}) in
  exists before event between reader after path,
    acknowledged_while_busy
    = before ++ Receive event :: between ++ reader :: after
    /\ ev_type event = "SEND_DEVELOP_HTML_RESPONSES"
    /\ outsideResolve (from before) = Some 0%nat
    /\ requests (from before) !! 0%nat = Some (path, AwaitAck)
    /\ machine (from (before ++ Receive event :: between)) = Atomic "waiting"
    /\ let j := S (length (history (from before))) in
       let k := length (history (from (before ++ Receive event :: between))) in
       history (from acknowledged_while_busy) !! j = Some (Resolve 0)
       /\ history (from acknowledged_while_busy) !! k
          = Some (Observe 0 (Atomic "waiting"))
       /\ (j < k)%nat /\ (k < 9)%nat.
Proof.
  apply (render_waits_for_ack_and_waiting
           "/project" ∅ (fun _ code _ _ => code) ∅
           (Atomic "busy") {[ "/about" ]} acknowledged_while_busy 9 0
           (renderJob "/project" ∅ "/about")).
  reflexivity.
Defined.

(** While the machine stays busy the poll keeps the request from the
    renderer, whatever the number of ticks. *)
Example busy_machine_blocks_render :
  history (run "/project" ∅ (fun _ code _ _ => code) ∅
             (initial (Atomic "busy") {[ "/about" ]})
             [ Incoming 0 "/about";
               Receive {| ev_type := "SEND_DEVELOP_HTML_RESPONSES" |};
               Resume 0; Tick 0; Resume 0; Tick 0; Tick 0 ])
  = [ Callback "DEVELOP_HTML_REQUEST_RECEIVED";
      ConsoleLog "waiting for response";
      ConsoleLog "SEND_DEVELOP_HTML_RESPONSES";
      Resolve 0;
      Observe 0 (Atomic "busy"); Observe 0 (Atomic "busy");
      Observe 0 (Atomic "busy"); Observe 0 (Atomic "busy") ].
Proof. reflexivity. Qed.

(** C9: a request for a path outside the page registry is answered by
    [next()] alone: the step adds that single effect, so no signal is sent
    and no response written, it leaves the resolver slot as it was, and in
    every continuation of the run the request stays passed on and none of
    the later effects is a state read, an activity, a render call or a
    response of that request. *)
Theorem unregistered_path_passes_through
    directory fs codeFrameHTML env st (r : nat) (path : string) :
  requests st !! r = None ->
  path ∉ pages st ->
  let st1 := step directory fs codeFrameHTML env st (Incoming r path) in
  effects st1 = Next r :: effects st
  /\ outsideResolve st1 = outsideResolve st
  /\ requests st1 = <[r := (path, PassedOn)]> (requests st)
  /\ forall schedule,
       let st2 := run directory fs codeFrameHTML env st1 schedule in
       requests st2 !! r = Some (path, PassedOn)
       /\ exists later,
            effects st2 = later ++ effects st1
            /\ Forall (fun e => ~ past_registry_check r e) later.
Proof.
  intros Hfresh Hpath st1.
  assert (E : st1 = set_phase r path PassedOn (emit [Next r] st)).
  { subst st1. cbn [step]. rewrite Hfresh. unfold handler_entry.
    destruct (decide (path ∈ pages st)); [contradiction|reflexivity]. }
  rewrite E.
  split; [reflexivity|]. split; [reflexivity|]. split; [reflexivity|].
  intros schedule. apply run_keeps_passed_on.
  cbn. apply lookup_insert_eq.
Qed.

Lemma unregistered_path_passes_through_witness :
  let st1 := step "/project" ∅ (fun _ code _ _ => code) ∅
               (initial (Atomic "waiting") {[ "/about" ]})
               (Incoming 0 "/nope") in
  effects st1 = [Next 0]
  /\ outsideResolve st1 = None
  /\ requests st1 = <[0%nat := ("/nope", PassedOn)]> ∅.
Proof.
  pose proof (unregistered_path_passes_through
                "/project" ∅ (fun _ code _ _ => code) ∅
                (initial (Atomic "waiting") {[ "/about" ]}) 0 "/nope") as H.
  cbv zeta in H.
  destruct H as (H1 & H2 & H3 & _).
  - reflexivity.
  - vm_compute. discriminate.
  - repeat split; assumption.
Defined.

(** ** The worker pool *)

Import DevSSR.

Lemma alter_new_pool (f : Pool -> Pool) (ps : list Pool) (p : Pool) :
  alter f (length ps) (ps ++ [p]) = ps ++ [f p].
Proof.
  replace (length ps) with (length ps + 0)%nat by lia.
  rewrite alter_app_r. reflexivity.
Qed.

Lemma startWorker_eq st :
  startWorker st
  = (Ok (length (pools st)),
     {| pools := pools st ++ [warmed_pool];
        worker := worker st;
        trace := Called (length (pools st)) Warming
                 :: Created (length (pools st)) :: trace st |}).
Proof.
  unfold startWorker, mbind, new_JestWorker, call_renderHTML, ret.
  cbn. rewrite alter_new_pool. reflexivity.
Qed.

(** C7: [startWorker] builds one pool object, makes on it one call of
    [renderHTML], with [{ warming: true }], and returns the handle of that
    object while the call is still pending; it touches neither the other
    pools nor the variable [worker]. *)
Theorem startWorker_warms_without_waiting st :
  let n := length (pools st) in
  let st1 := snd (startWorker st) in
  fst (startWorker st) = Ok n
  /\ pools st1 = pools st ++ [warmed_pool]
  /\ received st1 n = [Warming]
  /\ call_status st1 n 0 = Some Pending
  /\ trace st1 = Called n Warming :: Created n :: trace st
  /\ worker st1 = worker st.
Proof.
  cbv zeta. rewrite startWorker_eq. cbn [fst snd pools trace worker].
  unfold received, call_status. cbn [pools].
  rewrite (list_lookup_middle (pools st) [] warmed_pool) by reflexivity.
  repeat split; reflexivity.
Qed.

Lemma restartWorker_eq st old :
  worker st = Some old ->
  restartWorker st
  = (Ok tt,
     {| pools := alter end_pool old (pools st ++ [warmed_pool]);
        worker := Some (length (pools st));
        trace := Ended old :: Assigned (length (pools st))
                 :: Called (length (pools st)) Warming
                 :: Created (length (pools st)) :: trace st |}).
Proof.
  intros H. unfold restartWorker, mbind at 1, read_worker.
  unfold mbind at 1. rewrite startWorker_eq.
  unfold mbind, write_worker, call_end. cbn. rewrite H. reflexivity.
Qed.

Lemma jobs_alter_ne f ps w old : w <> old -> jobs (alter f w ps) old = jobs ps old.
Proof. intros H. unfold jobs. rewrite list_lookup_alter_ne; auto. Qed.

Lemma jobs_alter_same f ps w old :
  (forall p, map fst (calls (f p)) = map fst (calls p)) ->
  jobs (alter f w ps) old = jobs ps old.
Proof.
  intros H. unfold jobs. destruct (decide (w = old)) as [->|Hne].
  - rewrite list_lookup_alter_eq. destruct (ps !! old); cbn; auto.
  - rewrite list_lookup_alter_ne; auto.
Qed.

Lemma jobs_app_l ps extra old :
  (old < length ps)%nat -> jobs (ps ++ extra) old = jobs ps old.
Proof. intros H. unfold jobs. rewrite lookup_app_l; auto. Qed.

Lemma finish_call_keeps_jobs i o p :
  map fst (calls (finish_call i o p)) = map fst (calls p).
Proof.
  unfold finish_call. cbn [calls].
  change (map fst) with (fmap (M:=list) (@fst Args CallStatus)).
  rewrite (list_fmap_alter fst _ id).
  - apply list_alter_id. reflexivity.
  - apply Forall_forall. intros [a s] _. destruct s; reflexivity.
Qed.

Lemma act_past old js st a : past old js st -> past old js (act st a).
Proof.
  intros (Hlen & Hw & Hj).
  destruct a as [| |p h d|w i o]; cbn [act].
  - unfold initDevWorkerPool, mbind. rewrite startWorker_eq.
    unfold write_worker. cbn [snd pools worker].
    unfold past; cbn [pools worker].
    split; [rewrite length_app; lia|]. split.
    + intros w [= <-]. exact Hlen.
    + rewrite jobs_app_l by exact Hlen. exact Hj.
  - destruct (worker st) as [w|] eqn:E.
    + rewrite (restartWorker_eq _ _ E). cbn [snd pools worker].
      unfold past; cbn [pools worker].
      split; [rewrite length_alter, length_app; lia|]. split.
      * intros w' [= <-]. exact Hlen.
      * pose proof (Hw _ eq_refl).
        rewrite jobs_alter_ne by lia.
        rewrite jobs_app_l by exact Hlen. exact Hj.
    + unfold restartWorker, mbind at 1, read_worker.
      unfold mbind at 1. rewrite startWorker_eq.
      unfold mbind, write_worker, call_end, throw. cbn. rewrite E.
      cbn [snd pools worker].
      unfold past; cbn [pools worker].
    split; [rewrite length_app; lia|]. split.
      * intros w' [= <-]. exact Hlen.
      * rewrite jobs_app_l by exact Hlen. exact Hj.
  - unfold renderDevHTML, mbind at 1, read_worker.
    destruct (worker st) as [w|] eqn:E.
    + unfold mbind, call_renderHTML, ret. cbn [snd pools worker].
      unfold past; cbn [pools worker].
      split; [rewrite length_alter; exact Hlen|]. split.
      * rewrite E. exact Hw.
      * pose proof (Hw _ eq_refl).
        rewrite jobs_alter_ne by lia. exact Hj.
    + unfold ret. cbn [snd].
      split; [exact Hlen|]. split; [|exact Hj].
      intros w Hsome. rewrite E in Hsome. discriminate.
  - unfold worker_finishes. cbn [pools worker].
    unfold past; cbn [pools worker].
    split; [rewrite length_alter; exact Hlen|]. split; [exact Hw|].
    rewrite jobs_alter_same; [exact Hj|]. apply finish_call_keeps_jobs.
Qed.

Lemma run_past old js script st :
  past old js st -> past old js (DevSSR.run st script).
Proof.
  revert st. induction script as [|a script IH]; intros st H.
  - exact H.
  - cbn. apply IH. apply act_past. exact H.
Qed.

Lemma act_keeps_worker st a : keeps_handle a -> worker (act st a) = worker st.
Proof.
  destruct a as [| |p h d|w i o]; cbn [keeps_handle act]; try contradiction.
  - intros _. unfold renderDevHTML, mbind, read_worker, call_renderHTML, ret.
    destruct (worker st) eqn:E; cbn; [exact E|exact E].
  - reflexivity.
Qed.

Lemma run_keeps_worker script st :
  Forall keeps_handle script -> worker (DevSSR.run st script) = worker st.
Proof.
  revert st. induction script as [|a script IH]; intros st H.
  - reflexivity.
  - inversion H as [|? ? Ha Hs]; subst.
    change (DevSSR.run st (a :: script)) with (DevSSR.run (act st a) script).
    rewrite (IH _ Hs). apply act_keeps_worker. exact Ha.
Qed.

(** [renderDevHTML] calls the pool that [worker] holds when it runs. *)
Lemma renderDevHTML_target st w p h d :
  worker st = Some w ->
  exists i,
    fst (renderDevHTML p h d st) = Ok (Awaiting w i)
    /\ trace (snd (renderDevHTML p h d st)) = Called w (Page p h d) :: trace st.
Proof.
  intros H. unfold renderDevHTML, mbind, read_worker, call_renderHTML, ret.
  rewrite H. cbn. eauto.
Qed.

(** C6: [restartWorker], called while [worker] holds the pool [old],
    creates and warms a new pool, then assigns it to [worker], then ends
    [old], in that order; the new handle differs from [old]; a
    [renderDevHTML] made in the state it leaves reads the new handle and
    puts its job on the new pool, and so does every [renderDevHTML] made
    after any number of renders and of calls finishing in the child; and
    whatever is called afterwards (renders, further restarts,
    [initDevWorkerPool], calls finishing in the child), the pool [old]
    never receives another job. *)
Theorem restart_routes_to_new_pool st old :
  worker st = Some old ->
  (old < length (pools st))%nat ->
  let n := length (pools st) in
  let st1 := snd (restartWorker st) in
  fst (restartWorker st) = Ok tt
  /\ trace st1
     = Ended old :: Assigned n :: Called n Warming :: Created n :: trace st
  /\ worker st1 = Some n
  /\ n <> old
  /\ ended <$> pools st1 !! old = Some true
  /\ ended <$> pools st1 !! n = Some false
  /\ (forall p h d,
        fst (renderDevHTML p h d st1) = Ok (Awaiting n 1)
        /\ received (snd (renderDevHTML p h d st1)) n = [Warming; Page p h d]
        /\ received (snd (renderDevHTML p h d st1)) old = received st old)
  /\ (forall script p h d,
        Forall keeps_handle script ->
        exists i,
          fst (renderDevHTML p h d (DevSSR.run st1 script)) = Ok (Awaiting n i)
          /\ trace (snd (renderDevHTML p h d (DevSSR.run st1 script)))
             = Called n (Page p h d) :: trace (DevSSR.run st1 script))
  /\ (forall script, received (DevSSR.run st1 script) old = received st old).
Proof.
  intros Hw Hlen. cbv zeta. rewrite (restartWorker_eq _ _ Hw).
  cbn [fst snd trace worker pools].
  assert (Hne : length (pools st) <> old) by lia.
  assert (Hnew : alter end_pool old (pools st ++ [warmed_pool])
                 !! length (pools st) = Some warmed_pool).
  { rewrite list_lookup_alter_ne by lia.
    apply list_lookup_middle. reflexivity. }
  assert (Hold : jobs (alter end_pool old (pools st ++ [warmed_pool])) old
                 = jobs (pools st) old).
  { rewrite jobs_alter_same by reflexivity. apply jobs_app_l. exact Hlen. }
  split; [reflexivity|]. split; [reflexivity|]. split; [reflexivity|].
  split; [exact Hne|]. split; [|split; [|split; [|split]]].
  - rewrite list_lookup_alter_eq, lookup_app_l by exact Hlen.
    destruct (lookup_lt_is_Some_2 (pools st) old Hlen) as [p ->]. reflexivity.
  - rewrite Hnew. reflexivity.
  - intros p h d.
    unfold renderDevHTML, mbind, read_worker, call_renderHTML, ret.
    cbn [fst snd worker pools]. rewrite Hnew. cbn [calls warmed_pool length].
    split; [reflexivity|]. unfold received. cbn [pools]. split.
    + rewrite list_lookup_alter_eq, Hnew. reflexivity.
    + change (jobs (alter (add_call (Page p h d)) (length (pools st))
                      (alter end_pool old (pools st ++ [warmed_pool]))) old
              = jobs (pools st) old).
      rewrite jobs_alter_ne by exact Hne. exact Hold.
  - intros script p h d Hs. apply renderDevHTML_target.
    rewrite (run_keeps_worker _ _ Hs). reflexivity.
  - intros script.
    apply (run_past old (jobs (pools st) old)).
    unfold past. cbn [pools worker].
    split; [rewrite length_alter, length_app; lia|]. split.
    + intros w [= <-]. exact Hlen.
    + exact Hold.
Qed.

Lemma restart_routes_to_new_pool_witness :
  let st := snd (initDevWorkerPool loaded) in
  let st1 := snd (restartWorker st) in
  worker st = Some 0%nat
  /\ worker st1 = Some 1%nat
  /\ forall script, received (DevSSR.run st1 script) 0 = [Warming].
Proof.
  pose proof (restart_routes_to_new_pool (snd (initDevWorkerPool loaded)) 0)
    as H.
  cbv zeta in H.
  destruct H as (_ & _ & H3 & _ & _ & _ & _ & _ & H8).
  - reflexivity.
  - vm_compute. lia.
  - split; [reflexivity|]. split; [exact H3|exact H8].
Defined.




(** With [worker] still [undefined] the executor throws before any call
    is made and the promise is rejected with that [TypeError]. *)
Example renderDevHTML_before_init :
  fst (renderDevHTML "/about" "/project/public/render-page.js" "/project" loaded)
  = Ok (RejectedEarly (TypeError "worker"))
  /\ promise_state loaded (RejectedEarly (TypeError "worker"))
     = Some (RejectedWithExn (TypeError "worker")).
Proof. split; reflexivity. Qed.

(** * Further properties of the error translator *)

Lemma split_length sep s : length (split sep s) = S (count_char sep s).
Proof.
  induction s as [|c s IH]; [reflexivity|].
  cbn [split count_char]. destruct (Ascii.eqb c sep).
  - cbn [length]. rewrite IH. reflexivity.
  - destruct (split sep s) as [|hd tl]; [discriminate IH|].
    cbn [length] in *. lia.
Qed.

Lemma split_without_sep sep s : count_char sep s = 0%nat -> split sep s = [s].
Proof.
  induction s as [|c s IH]; [reflexivity|].
  cbn [split count_char]. destruct (Ascii.eqb c sep); [discriminate|].
  intros H. rewrite (IH H). reflexivity.
Qed.

Lemma split_at_sep sep a b :
  count_char sep a = 0%nat ->
  split sep (a ++ String sep b)%string = a :: split sep b.
Proof.
  induction a as [|c a IH].
  - intros _. change ("" ++ String sep b)%string with (String sep b).
    cbn [split]. rewrite Ascii.eqb_refl. reflexivity.
  - change (String c a ++ String sep b)%string
      with (String c (a ++ String sep b)%string).
    cbn [split count_char].
    destruct (Ascii.eqb c sep); [discriminate|].
    intros H. rewrite (IH H). reflexivity.
Qed.

Lemma index_from_end_short {A} (l : list A) back :
  (length l < back)%nat -> index_from_end l back = None.
Proof.
  intros H. unfold index_from_end.
  destruct (Nat.leb_spec back (length l)); [lia|reflexivity].
Qed.

Lemma first_frame_none stackObject :
  first_frame stackObject = None ->
  List.filter (Regex.test stackLineRe) stackObject = [].
Proof.
  unfold first_frame.
  destruct (List.filter (Regex.test stackLineRe) stackObject);
    [reflexivity|discriminate].
Qed.

(** X2: an error whose stack text has no line of the shape [... (...)]
    and fewer than two colons on its first line has no file name:
    [parseError] throws a [TypeError], whatever the project directory and
    the files on disk. *)
Theorem parseError_throws_without_position
    directory fs codeFrameHTML (err : JSError) :
  first_frame (split "010"%char (stack_text err)) = None ->
  (count_char ":"%char (first_line (stack_text err)) < 2)%nat ->
  parseError directory fs codeFrameHTML err = Throw (TypeError "undefined").
Proof.
  intros Hnone Hcolons.
  unfold parseError. fold (stack_text err).
  unfold getPosition, getPosition_try.
  rewrite (first_frame_none _ Hnone). cbn [length Nat.ltb Nat.leb].
  unfold first_line in Hcolons.
  destruct (split "010"%char (stack_text err)) as [|l ls] eqn:E;
    [exfalso; exact (split_not_nil _ _ E)|].
  cbn in Hcolons. cbn [lookup list_lookup bind try_catch].
  unfold sourceFilename. cbn [filename].
  rewrite index_from_end_short; [reflexivity|].
  rewrite split_length. lia.
Qed.

Lemma parseError_throws_without_position_witness :
  parseError "/project" ∅ (fun _ code _ _ => code)
    {| e_stack := None; e_message := Some "boom";
       e_type := None; e_name := Some "Error" |}
  = Throw (TypeError "undefined").
Proof.
  apply parseError_throws_without_position.
  - reflexivity.
  - vm_compute. lia.
Defined.

Lemma exec_stackFileRe_skip pre t :
  count_char "("%char pre = 0%nat ->
  Regex.exec stackFileRe (pre ++ t)%string = Regex.exec stackFileRe t.
Proof.
  induction pre as [|c pre IH]; [reflexivity|].
  cbn [count_char]. intros H.
  change (String c pre ++ t)%string with (String c (pre ++ t)%string).
  cbn [Regex.exec]. rewrite run_stackFileRe.
  cbn [Regex.atom_ok].
  destruct (Ascii.eqb c "("%char); [discriminate|].
  apply IH. exact H.
Qed.

Lemma prefix_append a b : Regex.prefix (String.length a) (a ++ b)%string = a.
Proof.
  induction a as [|c a IH].
  - destruct b; reflexivity.
  - change (String c a ++ b)%string with (String c (a ++ b)%string).
    cbn [String.length Regex.prefix]. rewrite IH. reflexivity.
Qed.

Lemma length_append a b :
  String.length (a ++ b)%string = (String.length a + String.length b)%nat.
Proof.
  induction a as [|c a IH]; [reflexivity|].
  change (String c a ++ b)%string with (String c (a ++ b)%string).
  cbn [String.length]. rewrite IH. reflexivity.
Qed.

Lemma append_assoc (a b c : string) :
  ((a ++ b) ++ c)%string = (a ++ b ++ c)%string.
Proof.
  induction a as [|x a IH]; [reflexivity|].
  change (((String x a ++ b) ++ c)%string)
    with (String x ((a ++ b) ++ c)%string).
  rewrite IH. reflexivity.
Qed.

Lemma length_append_close a :
  (String.length (a ++ ")")%string - 1)%nat = String.length a.
Proof. rewrite length_append. cbn [String.length]. lia. Qed.

Lemma all_of_append p a b :
  JS.all_of p a = true -> JS.all_of p b = true ->
  JS.all_of p (a ++ b)%string = true.
Proof.
  induction a as [|c a IH]; [trivial|].
  change (String c a ++ b)%string with (String c (a ++ b)%string).
  cbn [JS.all_of]. destruct (p c); cbn [andb]; [exact IH|discriminate].
Qed.

(** The lazy run of dots stops at the closing parenthesis that ends the
    line, and the capture is everything before it. *)
Lemma lazy_dots_to_close inner s0 :
  one_line inner -> inner <> ""%string ->
  Regex.run (Regex.LazyPlus Regex.ADot) (inner ++ ")")%string []
    (after_capture s0)
  = Some [Regex.prefix (String.length s0 - 1) s0].
Proof.
  unfold one_line.
  induction inner as [|c t IH]; [congruence|].
  cbn [JS.all_of]. intros Hall _.
  apply andb_true_iff in Hall as [Hc Ht].
  change (String c t ++ ")")%string with (String c (t ++ ")")%string).
  cbn [Regex.run]. rewrite Hc.
  destruct t as [|c' t'].
  - reflexivity.
  - replace (after_capture s0 (String c' t' ++ ")")%string []) with
      (@None (list string)).
    + apply IH; [exact Ht|discriminate].
    + unfold after_capture.
      change (String c' t' ++ ")")%string with (String c' (t' ++ ")")%string).
      cbn [Regex.run Regex.atom_ok].
      destruct (Ascii.eqb c' ")"%char); [|reflexivity].
      destruct t'; reflexivity.
Qed.

Lemma exec_stackFileRe_frame pre inner :
  count_char "("%char pre = 0%nat ->
  one_line inner -> inner <> ""%string ->
  Regex.exec stackFileRe (pre ++ "(" ++ inner ++ ")")%string = Some [inner].
Proof.
  intros Hpre Hline Hne.
  rewrite (exec_stackFileRe_skip _ _ Hpre).
  change ("(" ++ inner ++ ")")%string with (String "("%char (inner ++ ")")%string).
  cbn [Regex.exec]. rewrite run_stackFileRe. cbn [Regex.atom_ok].
  rewrite Ascii.eqb_refl.
  rewrite (lazy_dots_to_close _ _ Hline Hne).
  rewrite length_append_close, prefix_append. reflexivity.
Qed.

(** X3: a stack whose first line of the shape [... (...)] reads
    [pre(file:line:column)], where [pre] has no opening parenthesis and the
    three parts have neither colon nor line break, is parsed into that
    file name and the [Number] of that line and of that column. *)
Theorem getPosition_frame_line
    (stackObject : list string) (pre file ln col : string) :
  first_frame stackObject = Some (frame_line pre file ln col) ->
  count_char "("%char pre = 0%nat ->
  count_char ":"%char file = 0%nat ->
  count_char ":"%char ln = 0%nat ->
  count_char ":"%char col = 0%nat ->
  one_line file -> one_line ln -> one_line col ->
  getPosition stackObject
  = {| filename := Some file;
       line := Number (Some ln);
       row := Number (Some col) |}.
Proof.
  intros Hfirst Hpre Hf Hl Hc Lf Ll Lc.
  rewrite (getPosition_of_first_frame _ _ Hfirst).
  assert (Htest : Regex.test stackLineRe (frame_line pre file ln col) = true).
  { unfold first_frame in Hfirst.
    destruct (List.filter (Regex.test stackLineRe) stackObject) as [|x xs] eqn:E;
      [discriminate|].
    injection Hfirst as ->.
    assert (Hin : In (frame_line pre file ln col)
                    (List.filter (Regex.test stackLineRe) stackObject))
      by (rewrite E; left; reflexivity).
    apply List.filter_In in Hin. tauto. }
  unfold getPosition, getPosition_try.
  cbn [List.filter]. rewrite Htest.
  cbn [length Nat.ltb Nat.leb lookup list_lookup].
  unfold Regex.match_group.
  replace (frame_line pre file ln col)
    with (pre ++ "(" ++ (file ++ ":" ++ ln ++ ":" ++ col) ++ ")")%string
    by (unfold frame_line; rewrite !append_assoc; reflexivity).
  rewrite exec_stackFileRe_frame.
  - cbn [bind lookup list_lookup Nat.sub].
    change (file ++ ":" ++ ln ++ ":" ++ col)%string
      with (file ++ String ":"%char (ln ++ String ":"%char col))%string.
    rewrite (split_at_sep _ _ _ Hf), (split_at_sep _ _ _ Hl),
      (split_without_sep _ _ Hc).
    reflexivity.
  - exact Hpre.
  - unfold one_line in *.
    apply all_of_append; [exact Lf|].
    apply (all_of_append _ ":"); [reflexivity|].
    apply all_of_append; [exact Ll|].
    apply (all_of_append _ ":"); [reflexivity|exact Lc].
  - destruct file; discriminate.
Qed.

Lemma getPosition_frame_line_witness :
  getPosition
    ["TypeError: x is not a function";
     "    at Module.render (/lib/src/pages/index.js:10:3)";
     "    at next (/lib/node_modules/react/index.js:1:2)"]
  = {| filename := Some "/lib/src/pages/index.js";
       line := Number (Some "10"); row := Number (Some "3") |}.
Proof.
  apply (getPosition_frame_line _ "    at Module.render "
           "/lib/src/pages/index.js" "10" "3");
    reflexivity.
Defined.

Lemma concat_split sep s :
  String.concat (String sep "") (split sep s) = s.
Proof.
  induction s as [|c s IH]; [reflexivity|].
  cbn [split]. destruct (Ascii.eqb_spec c sep) as [->|Hne].
  - destruct (split sep s) as [|hd tl] eqn:E;
      [exfalso; exact (split_not_nil _ _ E)|].
    change (String.concat (String sep "") ("" :: hd :: tl))
      with (String sep (String.concat (String sep "") (hd :: tl))).
    rewrite IH. reflexivity.
  - destruct (split sep s) as [|hd tl] eqn:E;
      [exfalso; exact (split_not_nil _ _ E)|].
    rewrite <- IH. destruct tl; reflexivity.
Qed.

Lemma split_pieces_without_sep sep s :
  Forall (fun piece => count_char sep piece = 0%nat) (split sep s).
Proof.
  induction s as [|c s IH]; [repeat constructor|].
  cbn [split]. destruct (Ascii.eqb c sep) eqn:Ec.
  - constructor; [reflexivity|exact IH].
  - destruct (split sep s) as [|hd tl]; [repeat constructor; cbn; rewrite Ec; reflexivity|].
    inversion IH as [|? ? Hhd Htl]; subst.
    constructor; [|exact Htl]. cbn [count_char]. rewrite Ec. exact Hhd.
Qed.

Lemma index_from_end_last {A} (l : list A) (x : A) :
  index_from_end (l ++ [x]) 1 = Some x.
Proof.
  unfold index_from_end. rewrite length_app. cbn [length].
  destruct (Nat.leb_spec 1 (length l + 1)); [|lia].
  apply list_lookup_middle. lia.
Qed.

(** X4: when [parseError] returns, its [message] is the last line of
    [err.message]: a string without a line feed such that the original
    message is some lines and that string, joined by line feeds (and the
    empty string when the error has no message). *)
Theorem parseError_message_is_last_line
    directory fs codeFrameHTML (err : JSError) (pe : IParsedError) :
  parseError directory fs codeFrameHTML err = Ok pe ->
  exists m,
    p_message pe = Some m
    /\ count_char "010"%char m = 0%nat
    /\ (e_message err = None -> m = ""%string)
    /\ forall full,
         e_message err = Some full ->
         exists earlier,
           full = String.concat (String "010"%char "") (earlier ++ [m]).
Proof.
  unfold parseError.
  destruct (sourceFilename directory _) as [f|x]; [|discriminate].
  cbn [bind].
  destruct (readFileSync fs f) as [code|x]; [|discriminate].
  cbn [bind]. intros [= <-]. cbn [p_message].
  destruct (e_message err) as [full|] eqn:Em.
  - destruct full as [|c full'].
    + exists ""%string.
      split; [reflexivity|]. split; [reflexivity|]. split; [discriminate|].
      intros ? [= <-]. exists []. reflexivity.
    + change (truthy (Some (String c full'))) with true.
      cbv iota. cbn [default].
      pose proof (concat_split "010"%char (String c full')) as Hjoin.
      pose proof (split_pieces_without_sep "010"%char (String c full')) as Hno.
      destruct (split "010"%char (String c full')) as [|hd tl] eqn:E;
        [exfalso; exact (split_not_nil _ _ E)|].
      destruct (exists_last (l := hd :: tl)) as (earlier & m & Hl);
        [discriminate|].
      rewrite Hl in *. exists m.
      change (id (String c full')) with (String c full').
      rewrite E, index_from_end_last.
      split; [reflexivity|]. split.
      * apply Forall_app in Hno as [_ Hm]. inversion Hm; assumption.
      * split; [discriminate|].
        intros ? [= <-]. exists earlier. symmetry. exact Hjoin.
  - exists ""%string.
    split; [reflexivity|]. split; [reflexivity|]. split; [reflexivity|].
    discriminate.
Qed.

Lemma parseError_message_is_last_line_witness :
  exists m,
    p_message
      {| p_filename := "/project/src/pages/index.js"; p_code := "code";
         p_codeFrame := "code"; p_line := Int 10; p_row := Int 3;
         p_message := Some "x is not a function";
         p_type := Some "TypeError";
         p_stack := "at render (/lib/src/pages/index.js:10:3)" |} = Some m
    /\ count_char "010"%char m = 0%nat
    /\ (Some "Render failed
x is not a function" = @None string -> m = ""%string)
    /\ forall full,
         Some "Render failed
x is not a function" = Some full ->
         exists earlier,
           full = String.concat (String "010"%char "") (earlier ++ [m]).
Proof.
  apply (parseError_message_is_last_line "/project"
           {[ "/project/src/pages/index.js" := "code" ]}
           (fun _ code _ _ => code)
           {| e_stack := Some "at render (/lib/src/pages/index.js:10:3)";
              e_message := Some "Render failed
x is not a function";
              e_type := None; e_name := Some "TypeError" |}).
  reflexivity.
Defined.

(** * Further properties of the request gate *)

Lemma append_empty_r (a : string) : (a ++ "")%string = a.
Proof.
  induction a as [|c a IH]; [reflexivity|].
  change (String c a ++ "")%string with (String c (a ++ "")%string).
  rewrite IH. reflexivity.
Qed.

Lemma concat_empty_cons x l :
  String.concat "" (x :: l) = (x ++ String.concat "" l)%string.
Proof. destruct l; [symmetry; apply append_empty_r|reflexivity]. Qed.

Lemma concat_empty_app l1 l2 :
  String.concat "" (l1 ++ l2)
  = (String.concat "" l1 ++ String.concat "" l2)%string.
Proof.
  induction l1 as [|x l1 IH]; [reflexivity|].
  change ((x :: l1) ++ l2) with (x :: (l1 ++ l2)).
  rewrite !concat_empty_cons, IH, append_assoc. reflexivity.
Qed.

Lemma occurs_in_concat (l : list string) (i : nat) (x : string) :
  l !! i = Some x -> occurs x (String.concat "" l).
Proof.
  intros H. rewrite <- (take_drop_middle _ _ _ H).
  rewrite concat_empty_app, concat_empty_cons.
  eexists _, _. reflexivity.
Qed.

(** X5: when the render fails and [parseError] returns, the handler sends
    status 500 with a page in which the request path, the reconstructed
    file name, the last line of the message and the code frame occur, and
    then ends the activity. *)
Theorem rejected_render_gets_diagnostic_page
    directory fs codeFrameHTML (r : nat) (path : string)
    (e : JSError) (error : IParsedError) (st : Gate.State) :
  parseError directory fs codeFrameHTML e = Ok error ->
  exists body,
    effects (handler_after_render directory fs codeFrameHTML r path
               (Rejected e) st)
    = ActivityEnd r :: Send r 500 (Some body) :: effects st
    /\ occurs path body
    /\ occurs (p_filename error) body
    /\ occurs (interpolate (p_message error)) body
    /\ occurs (p_codeFrame error) body.
Proof.
  intros H. exists (errorPage path error).
  unfold handler_after_render. rewrite H.
  split; [reflexivity|]. unfold errorPage.
  split; [apply (occurs_in_concat _ 7); reflexivity|].
  split; [apply (occurs_in_concat _ 11); reflexivity|].
  split; [apply (occurs_in_concat _ 19); reflexivity|].
  apply (occurs_in_concat _ 29); reflexivity.
Qed.

Lemma rejected_render_gets_diagnostic_page_witness :
  exists body,
    effects (handler_after_render "/project"
               {[ "/project/src/pages/index.js" := "code" ]}
               (fun _ code _ _ => code) 0 "/about"
               (Rejected
                  {| e_stack := Some "at render (/lib/src/pages/index.js:10:3)";
                     e_message := Some "boom";
                     e_type := None; e_name := Some "Error" |})
               (initial (Atomic "waiting") {[ "/about" ]}))
    = [ActivityEnd 0; Send 0 500 (Some body)]
    /\ occurs "/about" body
    /\ occurs "/project/src/pages/index.js" body
    /\ occurs "boom" body
    /\ occurs "code" body.
Proof.
  apply (rejected_render_gets_diagnostic_page "/project"
           {[ "/project/src/pages/index.js" := "code" ]}
           (fun _ code _ _ => code) 0 "/about"
           {| e_stack := Some "at render (/lib/src/pages/index.js:10:3)";
              e_message := Some "boom";
              e_type := None; e_name := Some "Error" |}
           {| p_filename := "/project/src/pages/index.js"; p_code := "code";
              p_codeFrame := "code"; p_line := Int 10; p_row := Int 3;
              p_message := Some "boom"; p_type := Some "Error";
              p_stack := "at render (/lib/src/pages/index.js:10:3)" |}
           (initial (Atomic "waiting") {[ "/about" ]})).
  reflexivity.
Defined.

(** *** Render calls and responses per request *)

Lemma tally_app r a b :
  tally r (a ++ b)
  = ((tally r a).1 + (tally r b).1, (tally r a).2 + (tally r b).2)%nat.
Proof.
  unfold tally. cbn [fst snd].
  rewrite !List.filter_app, !length_app. reflexivity.
Qed.

Lemma tally_quiet r new l : tally r new = (0, 0)%nat -> tally r (new ++ l) = tally r l.
Proof.
  intros H. rewrite tally_app, H. reflexivity.
Qed.

Lemma responses_closed_cons e l :
  (forall r status body, e <> Send r status body) ->
  responses_closed l -> responses_closed (e :: l).
Proof.
  intros He Hl post r status body pre Heq.
  destruct post as [|x post]; cbn in Heq.
  - injection Heq as ->. exfalso. eapply He. reflexivity.
  - injection Heq as -> Heq.
    destruct (Hl _ _ _ _ _ Heq) as (Hs & [post' ->] & Hr).
    split; [exact Hs|]. split; [|exact Hr].
    exists (x :: post'). reflexivity.
Qed.

Lemma responses_closed_send l r status body :
  (status = 200 \/ status = 500)%nat ->
  (exists job, RenderHTML r job ∈ l) ->
  responses_closed l ->
  responses_closed (ActivityEnd r :: Send r status body :: l).
Proof.
  intros Hs Hr Hl post r' status' body' pre Heq.
  destruct post as [|x post]; cbn in Heq; [discriminate|].
  injection Heq as <- Heq.
  destruct post as [|y post]; cbn in Heq.
  - injection Heq as <- <- <- <-.
    split; [exact Hs|]. split; [exists []; reflexivity|exact Hr].
  - injection Heq as <- Heq.
    destruct (Hl _ _ _ _ _ Heq) as (Hs' & [post' ->] & Hr').
    split; [exact Hs'|]. split; [|exact Hr'].
    exists (ActivityEnd r :: Send r status body :: post'). reflexivity.
Qed.

Lemma response_invariant_initial v ps : response_invariant (initial v ps).
Proof.
  split; [|split].
  - intros r. cbn. rewrite lookup_empty. reflexivity.
  - intros post r s b pre H. destruct post; discriminate.
  - intros r p H. cbn in H. rewrite lookup_empty in H. discriminate.
Qed.

(** The invariant after some effects and a change of phase of [q]. *)
Lemma response_invariant_update st es q p ph :
  response_invariant st ->
  (forall r, r <> q -> tally r (rev es) = (0, 0)%nat) ->
  tally q (rev es ++ effects st) = expected_tally (Some ph) ->
  responses_closed (rev es ++ effects st) ->
  (ph = Rendering -> exists job, RenderHTML q job ∈ rev es ++ effects st) ->
  response_invariant (set_phase q p ph (emit es st)).
Proof.
  intros (Ht & Hc & Hr) Hquiet Hq Hc' Hq'. split; [|split].
  - intros r. cbn [effects requests set_phase emit].
    destruct (decide (q = r)) as [->|Hne].
    + rewrite lookup_insert_eq. exact Hq.
    + rewrite lookup_insert_ne by assumption.
      rewrite tally_quiet by (apply Hquiet; congruence). apply Ht.
  - exact Hc'.
  - intros r p' H. cbn [effects requests set_phase emit] in *.
    destruct (decide (q = r)) as [->|Hne].
    + rewrite lookup_insert_eq in H. injection H as _ ->.
      apply Hq'. reflexivity.
    + rewrite lookup_insert_ne in H by assumption.
      destruct (Hr _ _ H) as [job Hjob]. exists job.
      apply elem_of_app. right. exact Hjob.
Qed.

Lemma response_invariant_emit st es :
  response_invariant st ->
  (forall r, tally r (rev es) = (0, 0)%nat) ->
  responses_closed (rev es ++ effects st) ->
  response_invariant (emit es st).
Proof.
  intros (Ht & Hc & Hr) Hquiet Hc'. split; [|split].
  - intros r. cbn [effects requests emit].
    rewrite tally_quiet by apply Hquiet. apply Ht.
  - exact Hc'.
  - intros r p H. cbn [effects requests emit] in *.
    destruct (Hr _ _ H) as [job Hjob]. exists job.
    apply elem_of_app. right. exact Hjob.
Qed.

Ltac no_response :=
  cbn [rev app];
  repeat (apply responses_closed_cons; [intros ? ? ?; discriminate|]);
  try assumption.

Section Responses.
Variable directory : string.
Variable fs : gmap string string.
Variable codeFrameHTML : Colors -> string -> number -> number -> string.
Variable env : gmap string string.

Abbreviation step := (Gate.step directory fs codeFrameHTML env).
Abbreviation run := (Gate.run directory fs codeFrameHTML env).

Lemma step_response_invariant st i :
  response_invariant st -> response_invariant (step st i).
Proof.
  intros Hinv. pose proof Hinv as (Ht & Hc & Hr).
  destruct i as [q p|event|q|q|q o|v|ps]; cbn [Gate.step].
  - destruct (requests st !! q) as [[p' ph]|] eqn:E; [exact Hinv|].
    pose proof (Ht q) as Hq. rewrite E in Hq. cbn in Hq.
    unfold handler_entry. destruct (decide (p ∈ pages st)).
    + apply (response_invariant_update
               (set_outsideResolve q st)
               [Callback "DEVELOP_HTML_REQUEST_RECEIVED";
                ConsoleLog "waiting for response"] q p AwaitAck);
        [exact Hinv|reflexivity| | |discriminate].
      * rewrite tally_quiet by reflexivity. exact Hq.
      * cbn [effects set_outsideResolve]. no_response.
    + apply response_invariant_update;
        [exact Hinv|reflexivity| | |discriminate].
      * rewrite tally_quiet by reflexivity. exact Hq.
      * no_response.
  - unfold listener.
    assert (H1 : response_invariant (emit [ConsoleLog (ev_type event)] st))
      by (apply response_invariant_emit; [exact Hinv|reflexivity|no_response]).
    destruct (String.eqb (ev_type event) "SEND_DEVELOP_HTML_RESPONSES");
      [|exact H1].
    cbn [outsideResolve emit].
    destruct (outsideResolve st) as [q|].
    + assert (H2 : response_invariant
                     (emit [Resolve q] (emit [ConsoleLog (ev_type event)] st)))
        by (apply response_invariant_emit; [exact H1|reflexivity|];
            pose proof (proj1 (proj2 H1)); no_response).
      cbn [requests emit].
      destruct (requests st !! q) as [[p' ph]|] eqn:E; [|exact H2].
      destruct ph; try exact H2.
      pose proof (Ht q) as Hq. rewrite E in Hq. cbn in Hq.
      apply (response_invariant_update
               (emit [ConsoleLog (ev_type event)] st) [Resolve q]
               q p' AckResolved);
        [exact H1|reflexivity| | |discriminate].
      * rewrite tally_quiet by reflexivity.
        cbn [effects emit]. rewrite tally_quiet by reflexivity.
        exact Hq.
      * pose proof (proj1 (proj2 H1)). no_response.
    + apply response_invariant_emit; [exact H1|reflexivity|].
      pose proof (proj1 (proj2 H1)). no_response.
  - destruct (requests st !! q) as [[p ph]|] eqn:E; [|exact Hinv].
    pose proof (Ht q) as Hq. rewrite E in Hq.
    destruct ph; try exact Hinv; cbn in Hq.
    + unfold handler_after_ack. cbn [machine emit].
      destruct (is_waiting (machine st));
        (apply response_invariant_update;
         [exact Hinv|reflexivity| |no_response|discriminate]);
        rewrite tally_quiet by reflexivity; exact Hq.
    + unfold handler_after_poll.
      apply response_invariant_update; [exact Hinv| | | |].
      * intros r Hne. unfold tally. cbn.
        destruct (Nat.eqb_spec q r); [congruence|reflexivity].
      * unfold tally in *.
        cbn [rev app List.filter is_render is_send]. rewrite Nat.eqb_refl.
        cbn [length]. injection Hq as -> ->. reflexivity.
      * no_response.
      * intros _. eexists. cbn [rev app]. apply list_elem_of_here.
  - destruct (requests st !! q) as [[p ph]|] eqn:E; [|exact Hinv].
    pose proof (Ht q) as Hq. rewrite E in Hq.
    destruct ph; try exact Hinv; cbn in Hq.
    unfold interval_callback. cbn [machine emit].
    destruct (is_waiting (machine st)).
    + apply response_invariant_update;
        [exact Hinv|reflexivity| |no_response|discriminate].
      rewrite tally_quiet by reflexivity. exact Hq.
    + apply response_invariant_emit; [exact Hinv|reflexivity|no_response].
  - destruct (requests st !! q) as [[p ph]|] eqn:E; [|exact Hinv].
    pose proof (Ht q) as Hq. rewrite E in Hq.
    destruct ph; try exact Hinv; cbn in Hq.
    pose proof (Hr _ _ E) as Hjob.
    unfold handler_after_render.
    destruct o as [resp|e];
      [|destruct (parseError directory fs codeFrameHTML e)].
    + apply response_invariant_update; [exact Hinv| | | |discriminate].
      * intros r Hne. unfold tally. cbn.
        destruct (Nat.eqb_spec q r); [congruence|reflexivity].
      * unfold tally in *.
        cbn [rev app List.filter is_render is_send]. rewrite Nat.eqb_refl.
        cbn [length]. injection Hq as -> ->. reflexivity.
      * cbn [rev app]. apply responses_closed_send; auto.
    + apply response_invariant_update; [exact Hinv| | | |discriminate].
      * intros r Hne. unfold tally. cbn.
        destruct (Nat.eqb_spec q r); [congruence|reflexivity].
      * unfold tally in *.
        cbn [rev app List.filter is_render is_send]. rewrite Nat.eqb_refl.
        cbn [length]. injection Hq as -> ->. reflexivity.
      * cbn [rev app]. apply responses_closed_send; auto.
    + apply (response_invariant_update st []);
        [exact Hinv|reflexivity|exact Hq|exact Hc|discriminate].
  - exact Hinv.
  - exact Hinv.
Qed.

Lemma run_response_invariant schedule st :
  response_invariant st -> response_invariant (run st schedule).
Proof.
  revert st. induction schedule as [|i schedule IH]; intros st H.
  - exact H.
  - cbn. apply IH. apply step_response_invariant. exact H.
Qed.

End Responses.

(** X6: in every run of the route each request has at most one render
    call and at most one response, and never a response without a render
    call.  It has a response exactly when its handler has run to its last
    statement, [return null]; a handler that returned through [next()]
    has neither a render call nor a response, and a handler whose promise
    was rejected has one render call and no response. *)
Theorem one_render_and_one_response_per_request
    directory fs codeFrameHTML env v0 ps schedule (r : nat) :
  let st := Gate.run directory fs codeFrameHTML env (initial v0 ps) schedule in
  ((tally r (effects st)).1 <= 1)%nat
  /\ ((tally r (effects st)).2 <= (tally r (effects st)).1)%nat
  /\ ((tally r (effects st)).2 = 1%nat
      <-> exists p, requests st !! r = Some (p, Gate.Returned))
  /\ (forall p, requests st !! r = Some (p, PassedOn) ->
                tally r (effects st) = (0, 0)%nat)
  /\ (forall p x, requests st !! r = Some (p, Failed x) ->
                  tally r (effects st) = (1, 0)%nat).
Proof.
  cbv zeta.
  set (st := Gate.run directory fs codeFrameHTML env (initial v0 ps) schedule).
  assert (Hinv : response_invariant st)
    by (apply run_response_invariant, response_invariant_initial).
  destruct Hinv as (Ht & _ & _). rewrite (Ht r).
  destruct (requests st !! r) as [[p ph]|]; [destruct ph|]; cbn;
    (split; [lia|]); (split; [lia|]); (split; [split|]);
    try discriminate; try (intros [p' [=]]); eauto;
    split; intros; try reflexivity; discriminate.
Qed.

(** X7: in every run of the route a response has status 200 or 500, the
    effect right after it is the end of the activity of the same request,
    and a render call of that request happened before it. *)
Theorem response_follows_render_and_ends_activity
    directory fs codeFrameHTML env v0 ps schedule (i r status : nat) body :
  history (Gate.run directory fs codeFrameHTML env (initial v0 ps) schedule)
    !! i = Some (Send r status body) ->
  (status = 200 \/ status = 500)%nat
  /\ history (Gate.run directory fs codeFrameHTML env (initial v0 ps) schedule)
       !! S i = Some (ActivityEnd r)
  /\ exists j job,
       (j < i)%nat
       /\ history (Gate.run directory fs codeFrameHTML env
                     (initial v0 ps) schedule) !! j
          = Some (RenderHTML r job).
Proof.
  set (st := Gate.run directory fs codeFrameHTML env (initial v0 ps) schedule).
  intros Hi.
  assert (Hinv : response_invariant st)
    by (apply run_response_invariant, response_invariant_initial).
  destruct Hinv as (_ & Hc & _).
  pose proof (lookup_lt_Some _ _ _ Hi) as Hlen.
  pose proof (take_drop_middle _ _ _ Hi) as Hsplit.
  assert (Heff : effects st
                 = rev (drop (S i) (history st))
                   ++ Send r status body :: rev (take i (history st))).
  { rewrite <- (rev_involutive (effects st)).
    change (rev (effects st)) with (history st).
    rewrite <- Hsplit at 1.
    rewrite rev_app_distr. cbn [rev]. rewrite <- app_assoc. reflexivity. }
  destruct (Hc _ _ _ _ _ Heff) as (Hs & [post' Hpost] & [job Hjob]).
  split; [exact Hs|]. split.
  - assert (Hdrop : drop (S i) (history st) = ActivityEnd r :: rev post').
    { rewrite <- (rev_involutive (drop (S i) (history st))), Hpost.
      rewrite rev_app_distr. reflexivity. }
    rewrite <- Hsplit, Hdrop.
    assert (Hleni : length (take i (history st)) = i)
      by (rewrite length_take; lia).
    replace (take i (history st) ++ Send r status body
             :: ActivityEnd r :: rev post')
      with ((take i (history st) ++ [Send r status body])
            ++ ActivityEnd r :: rev post')
      by (rewrite <- app_assoc; reflexivity).
    apply list_lookup_middle. rewrite length_app. cbn [length]. lia.
  - apply list_elem_of_In in Hjob. apply (proj2 (in_rev _ _)) in Hjob.
    apply list_elem_of_In in Hjob.
    apply list_elem_of_lookup in Hjob as [j Hj].
    exists j, job. pose proof (lookup_lt_Some _ _ _ Hj) as Hjlen.
    rewrite length_take in Hjlen. split; [lia|].
    rewrite lookup_take_Some in Hj. tauto.
Qed.

Lemma response_follows_render_and_ends_activity_witness :
  let h := history (Gate.run "/project" ∅ (fun _ code _ _ => code) ∅
                      (initial (Atomic "busy") {[ "/about" ]})
                      (acknowledged_while_busy
                       ++ [Settle 0 (Fulfilled ["<html>About</html>"])])) in
  (200 = 200 \/ 200 = 500)%nat
  /\ h !! 11%nat = Some (ActivityEnd 0)
  /\ exists j job, (j < 10)%nat /\ h !! j = Some (RenderHTML 0 job).
Proof.
  apply (response_follows_render_and_ends_activity
           "/project" ∅ (fun _ code _ _ => code) ∅
           (Atomic "busy") {[ "/about" ]}
           (acknowledged_while_busy
            ++ [Settle 0 (Fulfilled ["<html>About</html>"])])
           10 0 200 (Some "<html>About</html>")).
  reflexivity.
Defined.

(** *** A resolver that was overwritten *)

Section Starvation.
Variable directory : string.
Variable fs : gmap string string.
Variable codeFrameHTML : Colors -> string -> number -> number -> string.
Variable env : gmap string string.

Abbreviation step := (Gate.step directory fs codeFrameHTML env).
Abbreviation run := (Gate.run directory fs codeFrameHTML env).

Ltac starved_done H Hslot :=
  split; [exact H|]; split; [exact Hslot|];
  first [ exists []; split; [reflexivity|constructor]
        | eexists [_]; split; [reflexivity|];
          repeat constructor; intros [?|?]; cbn in *; congruence
        | eexists [_; _]; split; [reflexivity|];
          repeat constructor; intros [?|?]; cbn in *; congruence ].

Lemma step_keeps_starved st i r path :
  requests st !! r = Some (path, AwaitAck) ->
  outsideResolve st <> Some r ->
  requests (step st i) !! r = Some (path, AwaitAck)
  /\ outsideResolve (step st i) <> Some r
  /\ exists new,
       effects (step st i) = new ++ effects st
       /\ Forall (fun e => ~ wakes r e) new.
Proof.
  intros H Hslot.
  assert (Hne : forall q p ph, requests st !! q = Some (p, ph) ->
                               ph <> AwaitAck -> q <> r)
    by (intros q p ph Hq Hph ->; rewrite H in Hq; congruence).
  destruct i as [q p|event|q|q|q o|v|ps]; cbn [Gate.step].
  - destruct (requests st !! q) as [[p' ph]|] eqn:E.
    + starved_done H Hslot.
    + assert (q <> r) by (intros ->; congruence).
      unfold handler_entry. destruct (decide (p ∈ pages st)); cbn.
      * rewrite lookup_insert_ne by assumption.
        split; [exact H|]. split; [congruence|].
        eexists [_; _]. split; [reflexivity|].
        repeat constructor; intros [?|?]; cbn in *; congruence.
      * rewrite lookup_insert_ne by assumption.
        split; [exact H|]. split; [exact Hslot|].
        eexists [_]. split; [reflexivity|].
        repeat constructor; intros [?|?]; cbn in *; congruence.
  - unfold listener.
    destruct (String.eqb (ev_type event) "SEND_DEVELOP_HTML_RESPONSES").
    + cbn. destruct (outsideResolve st) as [q|] eqn:Eslot; cbn.
      * assert (q <> r) by congruence.
        destruct (requests st !! q) as [[p' ph]|] eqn:E; cbn.
        -- destruct ph; cbn; try rewrite lookup_insert_ne by assumption;
             (split; [exact H|]); (split; [rewrite Eslot; exact Hslot|]);
             eexists [_; _]; (split; [reflexivity|]);
             repeat constructor; intros [?|?]; cbn in *; congruence.
        -- split; [exact H|]. split; [rewrite Eslot; exact Hslot|].
           eexists [_; _]. split; [reflexivity|].
           repeat constructor; intros [?|?]; cbn in *; congruence.
      * split; [exact H|]. split; [rewrite Eslot; exact Hslot|].
        eexists [_; _]. split; [reflexivity|].
        repeat constructor; intros [?|?]; cbn in *; congruence.
    + cbn. starved_done H Hslot.
  - destruct (requests st !! q) as [[p' ph]|] eqn:E;
      [|starved_done H Hslot].
    destruct ph; try starved_done H Hslot.
    + assert (q <> r) by (eapply Hne; [exact E|discriminate]).
      unfold handler_after_ack. cbn.
      destruct (is_waiting (machine st)); cbn;
        rewrite lookup_insert_ne by assumption;
        (split; [exact H|]); (split; [exact Hslot|]); eexists [_];
        (split; [reflexivity|]);
        repeat constructor; intros [?|?]; cbn in *; congruence.
    + assert (q <> r) by (eapply Hne; [exact E|discriminate]).
      unfold handler_after_poll. cbn.
      rewrite lookup_insert_ne by assumption.
      split; [exact H|]. split; [exact Hslot|]. eexists [_; _].
      split; [reflexivity|].
      repeat constructor; intros [?|?]; cbn in *; congruence.
  - destruct (requests st !! q) as [[p' ph]|] eqn:E;
      [|starved_done H Hslot].
    destruct ph; try starved_done H Hslot.
    assert (q <> r) by (eapply Hne; [exact E|discriminate]).
    unfold interval_callback. cbn.
    destruct (is_waiting (machine st)); cbn;
      try rewrite lookup_insert_ne by assumption;
      (split; [exact H|]); (split; [exact Hslot|]); eexists [_];
      (split; [reflexivity|]);
      repeat constructor; intros [?|?]; cbn in *; congruence.
  - destruct (requests st !! q) as [[p' ph]|] eqn:E;
      [|starved_done H Hslot].
    destruct ph; try starved_done H Hslot.
    assert (q <> r) by (eapply Hne; [exact E|discriminate]).
    unfold handler_after_render.
    destruct o as [resp|e];
      [|destruct (parseError directory fs codeFrameHTML e)]; cbn;
      rewrite lookup_insert_ne by assumption;
      (split; [exact H|]); (split; [exact Hslot|]).
    + eexists [_; _]. split; [reflexivity|].
      repeat constructor; intros [?|?]; cbn in *; congruence.
    + eexists [_; _]. split; [reflexivity|].
      repeat constructor; intros [?|?]; cbn in *; congruence.
    + exists []. split; [reflexivity|constructor].
  - starved_done H Hslot.
  - starved_done H Hslot.
Qed.

Lemma run_keeps_starved schedule st r path :
  requests st !! r = Some (path, AwaitAck) ->
  outsideResolve st <> Some r ->
  requests (run st schedule) !! r = Some (path, AwaitAck)
  /\ exists new,
       effects (run st schedule) = new ++ effects st
       /\ Forall (fun e => ~ wakes r e) new.
Proof.
  revert st. induction schedule as [|i schedule IH]; intros st H Hslot.
  - split; [exact H|]. exists []. split; [reflexivity|constructor].
  - rewrite run_cons.
    destruct (step_keeps_starved st i r path H Hslot)
      as (H1 & S1 & n1 & E1 & F1).
    destruct (IH _ H1 S1) as (H2 & n2 & E2 & F2).
    split; [exact H2|]. exists (n2 ++ n1). split.
    + rewrite E2, E1. apply app_assoc.
    + apply Forall_app. split; assumption.
Qed.

End Starvation.

(** X8: when a request for a registered path comes in while an earlier
    request is still suspended on its first promise, at whatever moment
    before the acknowledgment, the slot now holds the resolver of the
    newcomer and that of the earlier request is lost: whatever happens
    afterwards, the earlier request stays suspended on its first promise;
    its resolver is never called and it never reads the machine state,
    renders or responds. *)
Theorem overwritten_resolver_is_never_called
    directory fs codeFrameHTML env (st : Gate.State)
    (r q : nat) (p p' : string) :
  requests st !! r = Some (p, AwaitAck) ->
  requests st !! q = None ->
  p' ∈ pages st ->
  let st2 := Gate.step directory fs codeFrameHTML env st (Incoming q p') in
  outsideResolve st2 = Some q
  /\ forall schedule,
       requests (Gate.run directory fs codeFrameHTML env st2 schedule) !! r
       = Some (p, AwaitAck)
       /\ exists later,
            effects (Gate.run directory fs codeFrameHTML env st2 schedule)
            = later ++ effects st2
            /\ Forall (fun e => ~ wakes r e) later.
Proof.
  intros Hr Hq Hp' st2.
  assert (Hne : q <> r) by (intros ->; congruence).
  assert (E : st2
              = set_phase q p' AwaitAck
                  (emit [Callback "DEVELOP_HTML_REQUEST_RECEIVED";
                         ConsoleLog "waiting for response"]
                     (set_outsideResolve q st))).
  { subst st2. cbn [Gate.step]. rewrite Hq. unfold handler_entry.
    destruct (decide (p' ∈ pages st)); [reflexivity|contradiction]. }
  rewrite E. split; [reflexivity|].
  intros schedule. apply run_keeps_starved.
  - cbn. rewrite lookup_insert_ne by assumption. exact Hr.
  - cbn. congruence.
Qed.

Lemma overwritten_resolver_is_never_called_witness :
  let st := Gate.run "/project" ∅ (fun _ code _ _ => code) ∅
              (initial (Atomic "waiting") {[ "/about" ]})
              [Incoming 0 "/about"; Receive {| ev_type := "OTHER" |};
               Transition (Atomic "busy")] in
  let st2 := Gate.step "/project" ∅ (fun _ code _ _ => code) ∅ st
               (Incoming 1 "/about") in
  outsideResolve st2 = Some 1%nat
  /\ forall schedule,
       requests (Gate.run "/project" ∅ (fun _ code _ _ => code) ∅
                   st2 schedule) !! 0%nat
       = Some ("/about", AwaitAck).
Proof.
  pose proof (overwritten_resolver_is_never_called
                "/project" ∅ (fun _ code _ _ => code) ∅
                (Gate.run "/project" ∅ (fun _ code _ _ => code) ∅
                   (initial (Atomic "waiting") {[ "/about" ]})
                   [Incoming 0 "/about"; Receive {| ev_type := "OTHER" |};
                    Transition (Atomic "busy")])
                0 1 "/about" "/about") as H.
  cbv zeta in H.
  destruct H as [H1 H2].
  - reflexivity.
  - reflexivity.
  - vm_compute. reflexivity.
  - split; [exact H1|]. intros schedule. exact (proj1 (H2 schedule)).
Defined.

(** *** A request served after polling *)

Section Polling.
Variable directory : string.
Variable fs : gmap string string.
Variable codeFrameHTML : Colors -> string -> number -> number -> string.
Variable env : gmap string string.

Abbreviation step := (Gate.step directory fs codeFrameHTML env).
Abbreviation run := (Gate.run directory fs codeFrameHTML env).

Lemma run_app st s1 s2 : run st (s1 ++ s2) = run (run st s1) s2.
Proof. unfold Gate.run. apply fold_left_app. Qed.

Lemma repeat_shift {A} (x : A) n l : repeat x n ++ x :: l = repeat x (S n) ++ l.
Proof.
  induction n as [|n IH]; [reflexivity|].
  cbn [repeat app] in *. rewrite IH. reflexivity.
Qed.

(** While the machine is not waiting, a tick of a polling request only
    records what it saw. *)
Lemma ticks_while_busy n st r path :
  requests st !! r = Some (path, Polling) ->
  is_waiting (machine st) = false ->
  requests (run st (repeat (Tick r) n)) = requests st
  /\ machine (run st (repeat (Tick r) n)) = machine st
  /\ effects (run st (repeat (Tick r) n))
     = repeat (Observe r (machine st)) n ++ effects st.
Proof.
  revert st. induction n as [|n IH]; intros st Hr Hw.
  - repeat split; reflexivity.
  - cbn [repeat]. rewrite run_cons.
    assert (E : step st (Tick r) = emit [Observe r (machine st)] st).
    { cbn [Gate.step]. rewrite Hr. unfold interval_callback.
      cbn [machine emit]. rewrite Hw. reflexivity. }
    rewrite E.
    destruct (IH (emit [Observe r (machine st)] st) Hr Hw) as (H1 & H2 & H3).
    rewrite H1, H2, H3. repeat split; try reflexivity.
    apply (repeat_shift (Observe r (machine st)) n (effects st)).
Qed.

End Polling.

(** X9: a request for a registered path that is acknowledged while the
    machine is not waiting polls as often as the timer fires without
    rendering; once the machine waits, the next tick lets it through, the
    render is called once for that path, and when it succeeds the response
    is status 200 with the first element of the render result, followed
    by the end of the activity.  The history grows by exactly these
    effects, in this order. *)
Theorem acknowledged_request_is_served
    directory fs codeFrameHTML env (st : Gate.State)
    (r : nat) (path : string) (n : nat) (renderResponse : list string) :
  requests st !! r = None ->
  path ∈ pages st ->
  is_waiting (machine st) = false ->
  let st' := Gate.run directory fs codeFrameHTML env st
               (served_after_polling r path n renderResponse) in
  requests st' !! r = Some (path, Gate.Returned)
  /\ history st'
     = history st
       ++ [Callback "DEVELOP_HTML_REQUEST_RECEIVED";
           ConsoleLog "waiting for response";
           ConsoleLog "SEND_DEVELOP_HTML_RESPONSES";
           Resolve r]
       ++ repeat (Observe r (machine st)) (S n)
       ++ [Observe r (Atomic "waiting");
           ActivityStart r;
           RenderHTML r (renderJob directory env path);
           Send r 200 (renderResponse !! 0%nat);
           ActivityEnd r].
Proof.
  intros Hr Hp Hw st'. subst st'. unfold served_after_polling.
  rewrite !run_app.
  set (s3 := Gate.run directory fs codeFrameHTML env st
               [Incoming r path; Receive acknowledgment; Resume r]).
  assert (E3 : requests s3 !! r = Some (path, Polling)
               /\ machine s3 = machine st
               /\ effects s3
                  = [Observe r (machine st); Resolve r;
                     ConsoleLog "SEND_DEVELOP_HTML_RESPONSES";
                     ConsoleLog "waiting for response";
                     Callback "DEVELOP_HTML_REQUEST_RECEIVED"]
                    ++ effects st).
  { subst s3. unfold Gate.run. cbn [fold_left Gate.step].
    rewrite Hr. unfold handler_entry.
    destruct (decide (path ∈ pages st)); [|contradiction].
    unfold listener. cbn [ev_type acknowledgment].
    change (String.eqb "SEND_DEVELOP_HTML_RESPONSES"
              "SEND_DEVELOP_HTML_RESPONSES") with true.
    cbn [outsideResolve requests set_phase emit set_outsideResolve].
    rewrite lookup_insert_eq.
    cbn [outsideResolve requests set_phase emit set_outsideResolve].
    rewrite lookup_insert_eq.
    unfold handler_after_ack.
    cbn [machine requests set_phase emit set_outsideResolve].
    rewrite Hw.
    split; [cbn; apply lookup_insert_eq|]. split; reflexivity. }
  destruct E3 as (Hr3 & Hm3 & He3).
  assert (Hw3 : is_waiting (machine s3) = false) by (rewrite Hm3; exact Hw).
  destruct (ticks_while_busy directory fs codeFrameHTML env n s3 r path Hr3 Hw3)
    as (Hr4 & Hm4 & He4).
  set (s4 := Gate.run directory fs codeFrameHTML env s3 (repeat (Tick r) n))
    in *.
  unfold Gate.run at 1 2. cbn [fold_left Gate.step requests].
  rewrite Hr4, Hr3. unfold interval_callback. cbn [machine emit is_waiting].
  change (String.eqb "waiting" "waiting") with true.
  cbn [requests set_phase emit]. rewrite lookup_insert_eq.
  unfold handler_after_poll. cbn [requests set_phase emit].
  rewrite lookup_insert_eq.
  unfold handler_after_render. split.
  - cbn. apply lookup_insert_eq.
  - unfold history. cbn [effects set_phase emit rev app].
    rewrite He4, Hm3, He3.
    rewrite !rev_app_distr, rev_repeat. cbn [rev app].
    rewrite <- !app_assoc. cbn [app repeat]. reflexivity.
Qed.

Lemma acknowledged_request_is_served_witness :
  let st' := Gate.run "/project" ∅ (fun _ code _ _ => code) ∅
               (initial (Atomic "busy") {[ "/about" ]})
               (served_after_polling 0 "/about" 2 ["<html>About</html>"]) in
  requests st' !! 0%nat = Some ("/about", Gate.Returned)
  /\ history st'
     = [Callback "DEVELOP_HTML_REQUEST_RECEIVED";
        ConsoleLog "waiting for response";
        ConsoleLog "SEND_DEVELOP_HTML_RESPONSES";
        Resolve 0;
        Observe 0 (Atomic "busy"); Observe 0 (Atomic "busy");
        Observe 0 (Atomic "busy");
        Observe 0 (Atomic "waiting");
        ActivityStart 0;
        RenderHTML 0 (renderJob "/project" ∅ "/about");
        Send 0 200 (Some "<html>About</html>");
        ActivityEnd 0].
Proof.
  apply (acknowledged_request_is_served
           "/project" ∅ (fun _ code _ _ => code) ∅
           (initial (Atomic "busy") {[ "/about" ]})
           0 "/about" 2 ["<html>About</html>"]).
  - reflexivity.
  - vm_compute. reflexivity.
  - reflexivity.
Defined.

(** * Further properties of the worker pool *)

Lemma initDevWorkerPool_eq st :
  initDevWorkerPool st
  = (Ok tt,
     {| pools := pools st ++ [warmed_pool];
        worker := Some (length (pools st));
        trace := Assigned (length (pools st))
                 :: Called (length (pools st)) Warming
                 :: Created (length (pools st)) :: trace st |}).
Proof.
  unfold initDevWorkerPool, mbind. rewrite startWorker_eq. reflexivity.
Qed.

Lemma restartWorker_undefined_eq st :
  worker st = None ->
  restartWorker st
  = (Throw (TypeError "oldWorker"),
     {| pools := pools st ++ [warmed_pool];
        worker := Some (length (pools st));
        trace := Assigned (length (pools st))
                 :: Called (length (pools st)) Warming
                 :: Created (length (pools st)) :: trace st |}).
Proof.
  intros H.
  unfold restartWorker, mbind at 1, read_worker.
  unfold mbind at 1. rewrite startWorker_eq.
  unfold mbind, write_worker, call_end, throw. cbn. rewrite H. reflexivity.
Qed.

(** X10: [restartWorker] called while [worker] is [undefined] throws a
    [TypeError] at [oldWorker.end()], but only after it has created,
    warmed and assigned a pool: it leaves the module exactly as
    [initDevWorkerPool] would. *)
Theorem restart_before_init_throws_after_initialising (st : DevSSR.State) :
  worker st = None ->
  restartWorker st
  = (Throw (TypeError "oldWorker"), snd (initDevWorkerPool st)).
Proof.
  intros H. rewrite initDevWorkerPool_eq, (restartWorker_undefined_eq _ H).
  reflexivity.
Qed.

Lemma restart_before_init_throws_after_initialising_witness :
  restartWorker loaded
  = (Throw (TypeError "oldWorker"), snd (initDevWorkerPool loaded)).
Proof.
  apply restart_before_init_throws_after_initialising. reflexivity.
Defined.

Lemma act_before_init a :
  keeps_handle a -> act loaded a = loaded.
Proof.
  destruct a as [| |p h d|w i o]; cbn [keeps_handle]; try contradiction;
    intros _; reflexivity.
Qed.

(** X11: as long as neither [initDevWorkerPool] nor [restartWorker] has
    run, any number of [renderDevHTML] calls leaves the module as it was
    loaded (no pool is created, no call is made) and each of them returns
    a promise rejected with a [TypeError]. *)
Theorem render_before_init_is_rejected (script : list Action) (p h d : string) :
  Forall keeps_handle script ->
  DevSSR.run loaded script = loaded
  /\ renderDevHTML p h d (DevSSR.run loaded script)
     = (Ok (RejectedEarly (TypeError "worker")), loaded)
  /\ promise_state (DevSSR.run loaded script)
       (RejectedEarly (TypeError "worker"))
     = Some (RejectedWithExn (TypeError "worker")).
Proof.
  intros H.
  assert (E : DevSSR.run loaded script = loaded).
  { induction script as [|a script IH]; [reflexivity|].
    inversion H as [|? ? Ha Hs]; subst.
    change (DevSSR.run loaded (a :: script))
      with (DevSSR.run (act loaded a) script).
    rewrite (act_before_init _ Ha). apply IH. exact Hs. }
  rewrite E. repeat split; reflexivity.
Qed.

Lemma render_before_init_is_rejected_witness :
  DevSSR.run loaded
    [DoRender "/a" "/project/public/render-page.js" "/project";
     DoFinish 0 0 (Returned (VString "x"));
     DoRender "/b" "/project/public/render-page.js" "/project"] = loaded
  /\ renderDevHTML "/about" "/project/public/render-page.js" "/project"
       (DevSSR.run loaded
          [DoRender "/a" "/project/public/render-page.js" "/project";
           DoFinish 0 0 (Returned (VString "x"));
           DoRender "/b" "/project/public/render-page.js" "/project"])
     = (Ok (RejectedEarly (TypeError "worker")), loaded)
  /\ promise_state
       (DevSSR.run loaded
          [DoRender "/a" "/project/public/render-page.js" "/project";
           DoFinish 0 0 (Returned (VString "x"));
           DoRender "/b" "/project/public/render-page.js" "/project"])
       (RejectedEarly (TypeError "worker"))
     = Some (RejectedWithExn (TypeError "worker")).
Proof.
  apply render_before_init_is_rejected.
  repeat constructor.
Defined.

(** *** The pool behind the handle *)

Lemma end_pool_keeps_calls p : calls (end_pool p) = calls p.
Proof. reflexivity. Qed.






(** *** The warming call *)

Lemma warmed_once_add_call p h d pool :
  warmed_once pool -> warmed_once (add_call (Page p h d) pool).
Proof.
  intros (rest & Hjobs & Hrest). exists (rest ++ [Page p h d]).
  unfold add_call. cbn [calls]. rewrite map_app, Hjobs. split; [reflexivity|].
  apply Forall_app. split; [exact Hrest|].
  constructor; [discriminate|constructor].
Qed.

Lemma warmed_once_finish_call i o pool :
  warmed_once pool -> warmed_once (finish_call i o pool).
Proof.
  intros (rest & Hjobs & Hrest). exists rest.
  rewrite finish_call_keeps_jobs. split; assumption.
Qed.

Lemma warmed_once_new : warmed_once warmed_pool.
Proof. exists []. split; [reflexivity|constructor]. Qed.

Lemma act_all_warmed st a :
  Forall warmed_once (pools st) -> Forall warmed_once (pools (act st a)).
Proof.
  intros H.
  assert (Hnew : Forall warmed_once (pools st ++ [warmed_pool])).
  { apply Forall_app. split; [exact H|].
    constructor; [exact warmed_once_new|constructor]. }
  destruct a as [| |p h d|w i o]; cbn [act].
  - rewrite initDevWorkerPool_eq. exact Hnew.
  - destruct (worker st) as [old|] eqn:E.
    + rewrite (restartWorker_eq _ _ E). cbn [snd pools].
      apply Forall_alter; [exact Hnew|]. intros pool _ Hpool. exact Hpool.
    + rewrite (restartWorker_undefined_eq _ E). exact Hnew.
  - unfold renderDevHTML, mbind, read_worker, call_renderHTML, ret.
    destruct (worker st) as [w|]; cbn [snd pools]; [|exact H].
    apply Forall_alter; [exact H|].
    intros pool _. apply warmed_once_add_call.
  - cbn [worker_finishes pools].
    apply Forall_alter; [exact H|].
    intros pool _. apply warmed_once_finish_call.
Qed.

(** X13: whatever has been called on the module since it was loaded, every
    pool object has received the warming call as its first job and no
    second warming call: all its other jobs are page renders. *)
Theorem every_pool_is_warmed_once_and_first (script : list Action) :
  Forall warmed_once (pools (DevSSR.run loaded script)).
Proof.
  assert (H : forall st, Forall warmed_once (pools st) ->
                         Forall warmed_once (pools (DevSSR.run st script))).
  { induction script as [|a script IH]; intros st Hst; [exact Hst|].
    change (DevSSR.run st (a :: script)) with (DevSSR.run (act st a) script).
    apply IH, act_all_warmed, Hst. }
  apply H. constructor.
Qed.
